(** * Canonical report construction and resource-cache-backed client selection

    A shallow embedding of
    - [nautilus_trader/adapters/binance/factories.py] (modules [Binance] and
      [BinanceFactory]),
    - [nautilus_trader/adapters/polymarket/schemas/user.py] (module [Polymarket])
      and
    - [setup.py] (module [Setup]),
    with the fragment of Python they rely on (module [Py]): exceptions,
    [int(str)], [float(str)] as correctly rounded IEEE-754 binary64, and the
    [functools.lru_cache] decorator. *)

From Stdlib Require Import ZArith Lia Bool List Ascii String SpecFloat.
From stdpp Require Import base option list strings gmap.

Local Open Scope Z_scope.

(* ===================================================================== *)
(** * Python: exceptions and the error monad                              *)
(* ===================================================================== *)

Module Py.

(** The exceptions the two source files can raise (directly or through the
    builtins they call). *)
Inductive exception : Type :=
| ValueError (msg : string)
| KeyError (key : string)
| RuntimeError (msg : string)
| OverflowError (msg : string)
| TypeError (msg : string).

Inductive result (A : Type) : Type :=
| Ok (a : A)
| Raise (e : exception).
Arguments Ok {A} a.
Arguments Raise {A} e.

Definition bind {A B} (r : result A) (k : A -> result B) : result B :=
  match r with
  | Ok a => k a
  | Raise e => Raise e
  end.

(** Truthiness of a [str]: only the empty string is falsy. *)
Definition truthy (s : string) : bool :=
  match s with
  | EmptyString => false
  | String _ _ => true
  end.

(** [key or default()] on an [Optional[str]]: the right operand is only
    evaluated (and can only raise) when the left one is falsy. *)
Definition or_else (x : option string) (d : result string) : result string :=
  match x with
  | Some s => if truthy s then Ok s else d
  | None => d
  end.

(** ** Numeric literals

    The wire format carries numbers as strings of ASCII characters. The
    model covers the plain decimal notation: an optional sign, digits, and
    for [float] an optional point. ([int] and [float] also accept
    surrounding white space, underscores between digits, and [float] an
    exponent and the words inf and nan; such strings are outside the model,
    and no statement below is about them.) *)

Definition digit_of_ascii (c : ascii) : option Z :=
  let n := Z.of_N (N_of_ascii c) in
  if (48 <=? n) && (n <=? 57) then Some (n - 48) else None.

(** Horner evaluation of a run of digits; [None] on any other character. *)
Fixpoint digits_value (acc : Z) (s : string) : option Z :=
  match s with
  | EmptyString => Some acc
  | String c s' =>
      match digit_of_ascii c with
      | Some d => digits_value (10 * acc + d) s'
      | None => None
      end
  end.


Definition split_sign (s : string) : bool * string :=
  match s with
  | String "-" s' => (true, s')
  | String "+" s' => (false, s')
  | _ => (false, s)
  end.

(** [int(s)] *)
Definition int_of_str (s : string) : result Z :=
  let '(neg, body) := split_sign s in
  match body with
  | EmptyString => Raise (ValueError "invalid literal for int() with base 10")
  | _ =>
      match digits_value 0 body with
      | Some n => Ok (if neg then - n else n)
      | None => Raise (ValueError "invalid literal for int() with base 10")
      end
  end.

(** A parsed decimal literal: the number [(-1)^dec_neg * dec_digits / 10^dec_scale].
    [dec_digits] is the value of all digits read as one integer and
    [dec_scale] the number of digits after the point. *)
Record decimal : Type := {
  dec_neg : bool;
  dec_digits : Z;
  dec_scale : nat;
}.

(** The numerator of the number a decimal denotes, over [10^dec_scale]. *)
Definition signed_digits (x : decimal) : Z :=
  if dec_neg x then - dec_digits x else dec_digits x.

(** Comparison of the numbers two decimals denote. *)
Definition decimal_le (x y : decimal) : Prop :=
  signed_digits x * 10 ^ Z.of_nat (dec_scale y)
  <= signed_digits y * 10 ^ Z.of_nat (dec_scale x).


(** Splits at the first point: the part before it, and the part after it
    when there is a point. *)
Fixpoint split_point (s : string) : string * option string :=
  match s with
  | EmptyString => (EmptyString, None)
  | String "." s' => (EmptyString, Some s')
  | String c s' => let '(i, f) := split_point s' in (String c i, f)
  end.

Definition decimal_of_str (s : string) : option decimal :=
  let '(neg, body) := split_sign s in
  let '(i, f) := split_point body in
  let f := default EmptyString f in
  match i +:+ f with
  | EmptyString => None
  | ds =>
      n ← digits_value 0 ds;
      Some {| dec_neg := neg; dec_digits := n; dec_scale := String.length f |}
  end.

(** ** IEEE-754 binary64

    Every finite binary64 is an integer multiple of the smallest subnormal,
    [2^-1074]; [Finite u] is the float of value [u * 2^-1074]. The floats are
    the multiples [u = m * 2^k] with [|m| <= 2^53], [0 <= k] and
    [|u| < 2^(1024+1074)]. A decimal literal never yields a NaN, and the sign
    of a zero is not kept: nothing here observes it. *)
Inductive float : Type :=
| Finite (units : Z)
| Infinity (negative : bool).

Definition SUBNORMAL_BITS : Z := 1074.

(** Nearest integer to [n / d] for [d > 0], ties to the even one. *)
Definition round_half_even (n d : Z) : Z :=
  let q := n / d in
  match 2 * (n mod d) ?= d with
  | Lt => q
  | Gt => q + 1
  | Eq => if Z.even q then q else q + 1
  end.

(** The spacing of the floats around [n / d >= 0], as a power of two in
    units of [2^-1074]: 53 significant bits, and spacing [2^0] throughout the
    subnormal range. *)
Definition ulp_exponent (n d : Z) : Z :=
  Z.max 0 (Z.log2 (n * 2 ^ SUBNORMAL_BITS / d) - 52).

(** The multiple of the spacing nearest to [n / d >= 0], ties to even: the
    magnitude of the nearest binary64, in units of [2^-1074]. *)
Definition nearest_units (n d : Z) : Z :=
  round_half_even (n * 2 ^ SUBNORMAL_BITS) (d * 2 ^ ulp_exponent n d)
  * 2 ^ ulp_exponent n d.

(** The binary64 nearest to the rational [n / d] ([n >= 0], [d > 0]) with
    the sign [neg]; magnitudes that round to [2^1024] or more become
    infinite. *)
Definition float_of_ratio (neg : bool) (n d : Z) : float :=
  let u := nearest_units n d in
  if 2 ^ (1024 + SUBNORMAL_BITS) <=? u then Infinity neg
  else Finite (if neg then - u else u).

Definition float_of_decimal (x : decimal) : float :=
  float_of_ratio (dec_neg x) (dec_digits x) (10 ^ Z.of_nat (dec_scale x)).

(** The float of a decimal, in signed units of [2^-1074], when finite. *)
Definition signed_units (x : decimal) : Z :=
  let u := nearest_units (dec_digits x) (10 ^ Z.of_nat (dec_scale x)) in
  if dec_neg x then - u else u.

(** [float(s)]: correctly rounded conversion of the literal. *)
Definition float_of_str (s : string) : result float :=
  match decimal_of_str s with
  | Some x => Ok (float_of_decimal x)
  | None => Raise (ValueError "could not convert string to float")
  end.

(** The binary64 nearest to an integer. *)
Definition float_of_int (n : Z) : float := float_of_ratio (n <? 0) (Z.abs n) 1.

(** The binary64 product of two finite floats, each given in units of
    [2^-1074]: their exact product, rounded to the nearest binary64. *)
Definition mul_units (a b : Z) : float :=
  float_of_ratio (xorb (a <? 0) (b <? 0)) (Z.abs a * Z.abs b)
    (2 ^ SUBNORMAL_BITS * 2 ^ SUBNORMAL_BITS).

(** For comparison with the Standard Library's specification of IEEE-754
    arithmetic: the value of a [spec_float] in units of [2^-1074], and the
    binary64 quotient of two integers by the library's [SFdiv]. A literal
    with digits [n] and scale [k], both [n] and [10^k] below [2^53], denotes
    the quotient [n / 10^k] of two exactly representable numbers, so its
    float is that correctly rounded quotient. *)
Definition units_of_spec_float (f : spec_float) : option Z :=
  match f with
  | S754_zero _ => Some 0
  | S754_finite neg m e =>
      Some ((if neg then - Zpos m else Zpos m) * 2 ^ (e + SUBNORMAL_BITS))
  | _ => None
  end.

Definition spec_quotient (n d : positive) : spec_float :=
  SFdiv 53 1024 (binary_normalize 53 1024 (Zpos n) 0 false)
                (binary_normalize 53 1024 (Zpos d) 0 false).

Definition units_of_float (r : result float) : option Z :=
  match r with
  | Ok (Finite u) => Some u
  | _ => None
  end.

(** ** [functools.lru_cache(maxsize=1)]

    The decorated function keeps one slot holding the argument tuple and the
    result of the most recent miss. A call whose arguments hash and compare
    equal to the slot's is a hit and returns the stored object without
    running the body; any other call runs the body and overwrites the slot.
    The slot lives in the surrounding state [St]. *)
Section LruCache.
Context {St Args V : Type}.
Variable same_args : Args -> Args -> bool.
Variable get_slot : St -> option (Args * V).
Variable set_slot : option (Args * V) -> St -> St.
Variable body : Args -> St -> V * St.

Definition lru_miss (args : Args) (s : St) : V * St :=
  let '(v, s') := body args s in
  (v, set_slot (Some (args, v)) s').

Definition lru_cache_1 (args : Args) (s : St) : V * St :=
  match get_slot s with
  | Some (cached_args, v) =>
      if same_args cached_args args then (v, s) else lru_miss args s
  | None => lru_miss args s
  end.
End LruCache.

End Py.

#[global] Instance result_ret : MRet Py.result := @Py.Ok.
#[global] Instance result_bind : MBind Py.result := fun A B k r => Py.bind r k.

(* ===================================================================== *)
(** * adapters/binance/factories.py                                       *)
(* ===================================================================== *)

Module Binance.
Import Py.

(** [BinanceAccountType] (adapters/binance/common/enums.py, not part of the
    translated sources): the four venue sub-markets that [factories.py]
    names. *)
Inductive BinanceAccountType : Type :=
| SPOT | MARGIN | FUTURES_USDT | FUTURES_COIN.

#[global] Instance BinanceAccountType_eq_dec : EqDecision BinanceAccountType.
Proof. solve_decision. Defined.

Definition is_spot (a : BinanceAccountType) : bool := bool_decide (a = SPOT).
Definition is_margin (a : BinanceAccountType) : bool := bool_decide (a = MARGIN).

(** The external collaborators handed through the factory functions. They
    are opaque to this code; the logger and the provider configuration are
    hashed and compared when they are part of an [lru_cache] key. *)
Class Collaborators : Type := {
  Loop : Type;
  Clock : Type;
  Logger : Type;
  InstrumentProviderConfig : Type;
  Logger_eq_dec :: EqDecision Logger;
  InstrumentProviderConfig_eq_dec :: EqDecision InstrumentProviderConfig;
}.

Section Factories.
Context {X : Collaborators}.

(** The fields of [BinanceDataClientConfig] / [BinanceExecClientConfig]
    that the factory reads. *)
Record BinanceClientConfig : Type := {
  api_key : option string;
  api_secret : option string;
  account_type : BinanceAccountType;
  base_url_http : option string;
  base_url_ws : option string;
  us : bool;
  testnet : bool;
  instrument_provider : InstrumentProviderConfig;
}.

(** ** Venue/network resolver

    The last branch of each chain is the source's design-time error; no
    member of [BinanceAccountType] reaches it (its message, which also names
    the account type, is shortened here). *)

Definition top_level_domain (config : BinanceClientConfig) : string :=
  if us config then "us" else "com".

Definition _get_http_base_url (config : BinanceClientConfig) : result string :=
  let a := account_type config in
  if testnet config then
    if bool_decide (a = SPOT) || bool_decide (a = MARGIN) then
      Ok "https://testnet.binance.vision/api"
    else if bool_decide (a = FUTURES_USDT) then
      Ok "https://testnet.binancefuture.com"
    else if bool_decide (a = FUTURES_COIN) then
      Ok "https://testnet.binancefuture.com"
    else
      Raise (RuntimeError "invalid Binance account type")
  else
    if bool_decide (a = SPOT) then
      Ok ("https://api.binance." +:+ top_level_domain config)
    else if bool_decide (a = MARGIN) then
      Ok ("https://sapi.binance." +:+ top_level_domain config)
    else if bool_decide (a = FUTURES_USDT) then
      Ok ("https://fapi.binance." +:+ top_level_domain config)
    else if bool_decide (a = FUTURES_COIN) then
      Ok ("https://dapi.binance." +:+ top_level_domain config)
    else
      Raise (RuntimeError "invalid Binance account type").

Definition _get_ws_base_url (config : BinanceClientConfig) : result string :=
  let a := account_type config in
  if testnet config then
    if bool_decide (a = SPOT) || bool_decide (a = MARGIN) then
      Ok "wss://testnet.binance.vision"
    else if bool_decide (a = FUTURES_USDT) then
      Ok "wss://stream.binancefuture.com"
    else if bool_decide (a = FUTURES_COIN) then
      Raise (ValueError "no testnet for COIN-M futures")
    else
      Raise (RuntimeError "invalid Binance account type")
  else
    if bool_decide (a = SPOT) || bool_decide (a = MARGIN) then
      Ok ("wss://stream.binance." +:+ top_level_domain config +:+ ":9443")
    else if bool_decide (a = FUTURES_USDT) then
      Ok ("wss://fstream.binance." +:+ top_level_domain config)
    else if bool_decide (a = FUTURES_COIN) then
      Ok ("wss://dstream.binance." +:+ top_level_domain config)
    else
      Raise (RuntimeError "invalid Binance account type").

(** ** Resource cache *)

(** Python objects have identity: [obj_id] is the address an instance got
    when its constructor ran. *)
Record BinanceHttpClient : Type := {
  client_id : nat;
  client_loop : Loop;
  client_clock : Clock;
  client_logger : Logger;
  client_key : string;
  client_secret : string;
  client_base_url : option string;
}.

Inductive ProviderClass : Type :=
| BinanceSpotInstrumentProvider
| BinanceFuturesInstrumentProvider.

Record InstrumentProvider : Type := {
  provider_class : ProviderClass;
  provider_id : nat;
  provider_client : BinanceHttpClient;
  provider_logger : Logger;
  provider_account_type : BinanceAccountType;
  provider_config : InstrumentProviderConfig;
}.

(** The keyword arguments of the two provider getters; every call site in
    [factories.py] passes the same four keywords in the same order, so the
    [lru_cache] key is this tuple. *)
Record provider_args : Type := {
  arg_client : BinanceHttpClient;
  arg_logger : Logger;
  arg_account_type : BinanceAccountType;
  arg_config : InstrumentProviderConfig;
}.

(** Key comparison: the client is compared by object identity, the logger
    and the configuration by their own equality, the account type as an
    enum member. *)
Definition same_provider_args (k1 k2 : provider_args) : bool :=
  bool_decide (client_id (arg_client k1) = client_id (arg_client k2))
  && bool_decide (arg_logger k1 = arg_logger k2)
  && bool_decide (arg_account_type k1 = arg_account_type k2)
  && bool_decide (arg_config k1 = arg_config k2).

(** One entry per constructor call, newest first (ghost state used to
    count constructions). *)
Inductive construction : Type :=
| NewHttpClient (registry_key : string) (c : BinanceHttpClient)
| NewProvider (p : InstrumentProvider).

(** The process-wide state the module touches: [os.environ], the module
    global [HTTP_CLIENTS], the slots of the two [lru_cache(1)] wrappers
    and the allocator. *)
Record process : Type := {
  environ : gmap string string;
  HTTP_CLIENTS : gmap string BinanceHttpClient;
  spot_provider_cache : option (provider_args * InstrumentProvider);
  futures_provider_cache : option (provider_args * InstrumentProvider);
  next_id : nat;
  constructed : list construction;
}.

(** State at import time: [HTTP_CLIENTS = {}], both caches empty. *)
Definition initial_process (env : gmap string string) : process :=
  {| environ := env; HTTP_CLIENTS := ∅;
     spot_provider_cache := None; futures_provider_cache := None;
     next_id := 0%nat; constructed := [] |}.

Definition set_spot_provider_cache
    (slot : option (provider_args * InstrumentProvider)) (s : process) : process :=
  {| environ := environ s; HTTP_CLIENTS := HTTP_CLIENTS s;
     spot_provider_cache := slot;
     futures_provider_cache := futures_provider_cache s;
     next_id := next_id s; constructed := constructed s |}.

Definition set_futures_provider_cache
    (slot : option (provider_args * InstrumentProvider)) (s : process) : process :=
  {| environ := environ s; HTTP_CLIENTS := HTTP_CLIENTS s;
     spot_provider_cache := spot_provider_cache s;
     futures_provider_cache := slot;
     next_id := next_id s; constructed := constructed s |}.

Definition os_environ (name : string) (s : process) : result string :=
  match environ s !! name with
  | Some v => Ok v
  | None => Raise (KeyError name)
  end.

Definition _get_api_key (a : BinanceAccountType) (is_testnet : bool)
    (s : process) : result string :=
  if is_testnet then
    if is_spot a || is_margin a then os_environ "BINANCE_TESTNET_API_KEY" s
    else os_environ "BINANCE_FUTURES_TESTNET_API_KEY" s
  else
    if is_spot a || is_margin a then os_environ "BINANCE_API_KEY" s
    else os_environ "BINANCE_FUTURES_API_KEY" s.

Definition _get_api_secret (a : BinanceAccountType) (is_testnet : bool)
    (s : process) : result string :=
  if is_testnet then
    if is_spot a || is_margin a then os_environ "BINANCE_TESTNET_API_SECRET" s
    else os_environ "BINANCE_FUTURES_TESTNET_API_SECRET" s
  else
    if is_spot a || is_margin a then os_environ "BINANCE_API_SECRET" s
    else os_environ "BINANCE_FUTURES_API_SECRET" s.

(** The arguments of [get_cached_binance_http_client]. *)
Record http_client_args : Type := {
  loop : Loop;
  clock : Clock;
  logger : Logger;
  key : option string;
  secret : option string;
  http_account_type : BinanceAccountType;
  base_url : option string;
  is_testnet : bool;
}.

(** ["|".join((key, secret))] *)
Definition join_credentials (k sec : string) : string := k +:+ "|" +:+ sec.

(** [BinanceHttpClient(loop=..., ..., base_url=...)] followed by
    [HTTP_CLIENTS[client_key] = client]. *)
Definition new_http_client (a : http_client_args) (k sec client_key : string)
    (s : process) : process :=
  let client :=
    {| client_id := next_id s; client_loop := loop a; client_clock := clock a;
       client_logger := logger a; client_key := k; client_secret := sec;
       client_base_url := base_url a |} in
  {| environ := environ s;
     HTTP_CLIENTS := <[client_key := client]> (HTTP_CLIENTS s);
     spot_provider_cache := spot_provider_cache s;
     futures_provider_cache := futures_provider_cache s;
     next_id := S (next_id s);
     constructed := NewHttpClient client_key client :: constructed s |}.

Definition get_cached_binance_http_client (a : http_client_args) (s : process)
    : result BinanceHttpClient * process :=
  match or_else (key a) (_get_api_key (http_account_type a) (is_testnet a) s) with
  | Raise e => (Raise e, s)
  | Ok k =>
    match or_else (secret a) (_get_api_secret (http_account_type a) (is_testnet a) s) with
    | Raise e => (Raise e, s)
    | Ok sec =>
      let client_key := join_credentials k sec in
      let s' :=
        match HTTP_CLIENTS s !! client_key with
        | None => new_http_client a k sec client_key s
        | Some _ => s
        end in
      match HTTP_CLIENTS s' !! client_key with
      | Some client => (Ok client, s')
      | None => (Raise (KeyError client_key), s')
      end
    end
  end.

(** The undecorated bodies of the two provider getters: a constructor
    call. *)
Definition new_provider (cls : ProviderClass) (a : provider_args) (s : process)
    : InstrumentProvider * process :=
  let p :=
    {| provider_class := cls; provider_id := next_id s;
       provider_client := arg_client a; provider_logger := arg_logger a;
       provider_account_type := arg_account_type a;
       provider_config := arg_config a |} in
  (p, {| environ := environ s; HTTP_CLIENTS := HTTP_CLIENTS s;
         spot_provider_cache := spot_provider_cache s;
         futures_provider_cache := futures_provider_cache s;
         next_id := S (next_id s);
         constructed := NewProvider p :: constructed s |}).

Definition get_cached_binance_spot_instrument_provider
    : provider_args -> process -> InstrumentProvider * process :=
  lru_cache_1 same_provider_args spot_provider_cache set_spot_provider_cache
    (new_provider BinanceSpotInstrumentProvider).

Definition get_cached_binance_futures_instrument_provider
    : provider_args -> process -> InstrumentProvider * process :=
  lru_cache_1 same_provider_args futures_provider_cache set_futures_provider_cache
    (new_provider BinanceFuturesInstrumentProvider).

(** The registry key a call resolves to: the explicit credentials, or
    those of the environment, joined. (Not a function of the source: it names
    the value of its local [client_key].) *)
Definition registry_key (a : http_client_args) (s : process) : result string :=
  k ← or_else (key a) (_get_api_key (http_account_type a) (is_testnet a) s);
  sec ← or_else (secret a) (_get_api_secret (http_account_type a) (is_testnet a) s);
  Ok (join_credentials k sec).

(** ** Requests against the process-wide caches *)

Inductive request : Type :=
| HttpClientRequest (a : http_client_args)
| SpotProviderRequest (a : provider_args)
| FuturesProviderRequest (a : provider_args).

Definition step (r : request) (s : process) : process :=
  match r with
  | HttpClientRequest a => snd (get_cached_binance_http_client a s)
  | SpotProviderRequest a => snd (get_cached_binance_spot_instrument_provider a s)
  | FuturesProviderRequest a => snd (get_cached_binance_futures_instrument_provider a s)
  end.

(** The state after serving the requests in order, first request first. *)
Definition run (rs : list request) (s : process) : process :=
  fold_left (fun s r => step r s) rs s.

(** Number of [BinanceHttpClient] constructions stored under a registry
    key. *)
Fixpoint http_constructions (registry_key : string) (log : list construction) : nat :=
  match log with
  | [] => 0%nat
  | NewHttpClient k _ :: log' =>
      ((if bool_decide (k = registry_key) then 1 else 0) + http_constructions registry_key log')%nat
  | NewProvider _ :: log' => http_constructions registry_key log'
  end.

(** ** Notions used to state the properties of the caches *)

(** Hit: the slot holds a provider for equal arguments. *)
Definition cache_hit (slot : option (provider_args * InstrumentProvider))
    (a : provider_args) : option InstrumentProvider :=
  match slot with
  | Some (cached, p) => if same_provider_args cached a then Some p else None
  | None => None
  end.

(** The providers in the two slots were allocated before [next_id]. *)
Definition slot_allocated (n : nat)
    (slot : option (provider_args * InstrumentProvider)) : Prop :=
  forall a p, slot = Some (a, p) -> (provider_id p < n)%nat.

Record process_invariant (s : process) : Prop := {
  inv_counted : forall k,
    http_constructions k (constructed s)
    = match HTTP_CLIENTS s !! k with Some _ => 1%nat | None => 0%nat end;
  inv_spot : slot_allocated (next_id s) (spot_provider_cache s);
  inv_futures : slot_allocated (next_id s) (futures_provider_cache s);
}.

(** Two calls in a row of a getter built with [lru_cache_1]. *)
Definition most_recent_only
    (get : provider_args -> process -> InstrumentProvider * process)
    (slot : process -> option (provider_args * InstrumentProvider))
    (s : process) (a1 a2 : provider_args) : Prop :=
  let '(p1, s1) := get a1 s in
  let '(p2, s2) := get a2 s1 in
  if same_provider_args a1 a2 then p2 = p1 /\ s2 = s1
  else provider_id p2 <> provider_id p1
       /\ constructed s2 = NewProvider p2 :: constructed s1
       /\ slot s2 = Some (a2, p2).

End Factories.
End Binance.

(* ===================================================================== *)
(** * adapters/polymarket/schemas/user.py                                 *)
(* ===================================================================== *)

Module Polymarket.
Import Py.

(** ** Platform types the parsers build on *)

(** Identifiers wrap the string they are built from. *)
Record AccountId : Type := { account_id_value : string }.
Record InstrumentId : Type := { instrument_id_value : string }.
Record ClientOrderId : Type := { client_order_id_value : string }.
Record VenueOrderId : Type := { venue_order_id_value : string }.
Record TradeId : Type := { trade_id_value : string }.
Record UUID4 : Type := { uuid_value : string }.

(** Modelled from the spec: the constructor of [TradeId]
    (model/identifiers) is not part of the translated sources. A trade id
    is a string of 1 to 36 characters; the constructor raises on any other
    string. *)
Definition TradeId_new (value : string) : result TradeId :=
  if (1 <=? String.length value)%nat && (String.length value <=? 36)%nat
  then Ok {| trade_id_value := value |}
  else Raise (ValueError "invalid trade id, must be 1 to 36 characters").

(** A price or quantity: the number [raw / 10^precision]. *)
Record Fixed : Type := {
  raw : Z;
  precision : nat;
}.
Definition Price : Type := Fixed.
Definition Quantity : Type := Fixed.
Definition Money : Type := Fixed * string.

(** Order on fixed values of any two precisions. *)
Definition fixed_le (a b : Fixed) : Prop :=
  raw a * 10 ^ Z.of_nat (precision b) <= raw b * 10 ^ Z.of_nat (precision a).

#[global] Instance fixed_le_dec (a b : Fixed) : Decision (fixed_le a b).
Proof. unfold fixed_le. apply _. Defined.

(** Nearest integer to [n / d] for [d > 0], ties away from zero. *)
Definition round_half_away (n d : Z) : Z :=
  if 0 <=? n then (2 * n + d) / (2 * d) else - ((2 * (- n) + d) / (2 * d)).

(** The bounds of the platform's fixed-point values (model/objects) are
    not part of the translated sources: the largest precision, and the
    least and greatest price and the greatest quantity, as whole numbers.
    They are parameters here; a value within them, scaled, fits the raw
    integer of the type. A quantity is never negative. *)
Class FixedPoint : Type := {
  FIXED_PRECISION : nat;
  PRICE_MIN : Z;
  PRICE_MAX : Z;
  QUANTITY_MAX : Z;
}.

Definition QUANTITY_MIN : Z := 0.

(** The float of units [u] times [10^p], computed in binary64 and rounded
    to the nearest integer, ties away from zero; nothing when the power or
    the product is not finite. *)
Definition scale_units (u : Z) (p : nat) : option Z :=
  match float_of_int (10 ^ Z.of_nat p) with
  | Finite w =>
      match mul_units u w with
      | Finite v => Some (round_half_away v (2 ^ SUBNORMAL_BITS))
      | Infinity _ => None
      end
  | Infinity _ => None
  end.

(** Modelled from the spec: the instrument's price/quantity scaling
    functions ([BinaryOption.make_price], [BinaryOption.make_qty]) and the
    constructors of [Price] and [Quantity] they call are not part of the
    translated sources. They take the float the parser read and give the
    instrument-precision fixed value. The constructor raises when the
    precision is above the platform's largest, and when the float is not
    within the bounds [lo] and [hi] of the type (an infinite float never
    is); otherwise the value is the float times [10^precision], computed in
    binary64 and rounded to the nearest integer. *)
Definition to_fixed (lo hi : Z) (max_precision : nat) (x : float) (p : nat)
    : result Fixed :=
  if (max_precision <? p)%nat then
    Raise (ValueError "invalid precision, greater than the maximum")
  else
    match x with
    | Finite u =>
        if (lo * 2 ^ SUBNORMAL_BITS <=? u) && (u <=? hi * 2 ^ SUBNORMAL_BITS) then
          match scale_units u p with
          | Some r => Ok {| raw := r; precision := p |}
          | None => Raise (OverflowError "scaled value is not finite")
          end
        else Raise (ValueError "invalid value, not in range")
    | Infinity _ => Raise (ValueError "invalid value, not in range")
    end.

(** Modelled from the spec: formatting a fixed value at its precision (the
    string form of [Price] and [Quantity]) is not part of the translated
    sources. It is the usual positional notation: a minus sign for a
    negative value, the integer part without leading zeros, and, when the
    precision is not zero, a point and exactly [precision] fractional
    digits. *)
Definition ascii_of_digit (d : Z) : ascii := ascii_of_N (Z.to_N (48 + d)).

(** The [w] low decimal digits of [n >= 0], most significant first, in front
    of [acc]. *)
Fixpoint digits_of_width (w : nat) (n : Z) (acc : string) : string :=
  match w with
  | O => acc
  | S w' => digits_of_width w' (n / 10) (String (ascii_of_digit (n mod 10)) acc)
  end.

(** Number of decimal digits of [n >= 0] (one for zero); [fuel] bounds the
    number of divisions. *)
Fixpoint count_digits (fuel : nat) (n : Z) : nat :=
  match fuel with
  | O => 1
  | S fuel' => if n <? 10 then 1%nat else S (count_digits fuel' (n / 10))
  end.

Definition str_of_nat (n : Z) : string :=
  digits_of_width (count_digits (Z.to_nat (Z.log2 n)) n) n EmptyString.

Definition format_fixed (f : Fixed) : string :=
  let a := Z.abs (raw f) in
  let unit := 10 ^ Z.of_nat (precision f) in
  (if raw f <? 0 then "-" else "")
  +:+ str_of_nat (a / unit)
  +:+ match precision f with
      | O => ""
      | S _ => String "." (digits_of_width (precision f) (a mod unit) EmptyString)
      end.




Record BinaryOption : Type := {
  id : InstrumentId;
  price_precision : nat;
  size_precision : nat;
}.

Definition make_price {L : FixedPoint} (instrument : BinaryOption) (x : float)
    : result Price :=
  to_fixed PRICE_MIN PRICE_MAX FIXED_PRECISION x (price_precision instrument).

Definition make_qty {L : FixedPoint} (instrument : BinaryOption) (x : float)
    : result Quantity :=
  to_fixed QUANTITY_MIN QUANTITY_MAX FIXED_PRECISION x (size_precision instrument).

(** The fixed value [float(s)] scales to at precision [p], with the checks
    of the constructor left out: what a successful conversion returns. *)
Definition scaled_literal (s : string) (p : nat) : option Fixed :=
  match float_of_str s with
  | Ok (Finite u) => r ← scale_units u p; Some {| raw := r; precision := p |}
  | _ => None
  end.

(** Modelled from the spec: [millis_to_nanos] (core/datetime) is not part
    of the translated sources. Given a count of milliseconds since the
    epoch it gives the equivalent count of nanoseconds, and fails when that
    count is outside the representable range, here an unsigned 64-bit
    integer. *)
Definition NANOS_MAX : Z := 2 ^ 64 - 1.

Definition millis_to_nanos (millis : Z) : result Z :=
  let nanos := millis * 1000000 in
  if (0 <=? nanos) && (nanos <=? NANOS_MAX) then Ok nanos
  else Raise (OverflowError "nanoseconds out of range").

Inductive OrderType : Type := LIMIT.
Inductive ContingencyType : Type := NO_CONTINGENCY.
Inductive OrderSide : Type := OrderSide_BUY | OrderSide_SELL.
Inductive LiquiditySide : Type := LiquiditySide_MAKER | LiquiditySide_TAKER.

(** ** Venue vocabulary *)

Inductive PolymarketOrderSide : Type := BUY | SELL.
Inductive PolymarketLiquiditySide : Type := MAKER | TAKER.

#[global] Instance PolymarketLiquiditySide_eq_dec : EqDecision PolymarketLiquiditySide.
Proof. solve_decision. Defined.

(** Modelled from the spec: [parse_order_side] (polymarket/common/parsing)
    is not part of the translated sources; it maps the venue side onto the
    canonical side of the same name. *)
Definition parse_order_side (side : PolymarketOrderSide) : OrderSide :=
  match side with
  | BUY => OrderSide_BUY
  | SELL => OrderSide_SELL
  end.

(** The remaining venue enumerations and their mappers
    (polymarket/common/enums and polymarket/common/parsing) are not part of
    the translated sources and are only passed along here: total functions
    over closed enumerations. *)
Class Vocabulary : Type := {
  PolymarketEventType : Type;
  PolymarketOrderStatus : Type;
  PolymarketOrderType : Type;
  PolymarketTradeStatus : Type;
  OrderStatus : Type;
  TimeInForce : Type;
  parse_order_status : PolymarketOrderStatus -> OrderStatus;
  parse_time_in_force : PolymarketOrderType -> TimeInForce;
}.

(** [PolymarketMakerOrder] (polymarket/schemas/order): the two fields that
    [user.py] reads. *)
Record PolymarketMakerOrder : Type := {
  mo_maker_address : string;
  order_id : string;
}.

Section Schemas.
Context {V : Vocabulary} {L : FixedPoint}.

(** ** Canonical reports *)

Record OrderStatusReport : Type := {
  osr_account_id : AccountId;
  osr_instrument_id : InstrumentId;
  osr_client_order_id : option ClientOrderId;
  osr_order_list_id : option string;
  osr_venue_order_id : VenueOrderId;
  osr_order_side : OrderSide;
  osr_order_type : OrderType;
  osr_contingency_type : ContingencyType;
  osr_time_in_force : TimeInForce;
  expire_time : option Z;
  osr_order_status : OrderStatus;
  price : Price;
  quantity : Quantity;
  filled_qty : Quantity;
  ts_accepted : Z;
  ts_last : Z;
  osr_report_id : UUID4;
  osr_ts_init : Z;
}.

(** Modelled from the spec: the constructor of [OrderStatusReport]
    (execution/reports) is not part of the translated sources. The filled
    quantity of a report is at most its quantity: the constructor raises
    when it is given a filled quantity above the quantity (the quantity left
    to fill would be negative). *)
Definition OrderStatusReport_new (r : OrderStatusReport) : result OrderStatusReport :=
  if bool_decide (fixed_le (filled_qty r) (quantity r)) then Ok r
  else Raise (ValueError "invalid quantity, filled_qty was greater than quantity").

Record FillReport : Type := {
  fr_account_id : AccountId;
  fr_instrument_id : InstrumentId;
  fr_client_order_id : option ClientOrderId;
  venue_order_id : VenueOrderId;
  trade_id : TradeId;
  fr_order_side : OrderSide;
  last_qty : Quantity;
  last_px : Price;
  commission : Money;
  liquidity_side : LiquiditySide;
  fr_report_id : UUID4;
  ts_event : Z;
  fr_ts_init : Z;
}.

(** The arguments a call of [FillReport(...)] passes, all but the
    commission. *)
Record fill_report_args : Type := {
  arg_account_id : AccountId;
  arg_instrument_id : InstrumentId;
  arg_client_order_id : option ClientOrderId;
  arg_venue_order_id : VenueOrderId;
  arg_trade_id : TradeId;
  arg_order_side : OrderSide;
  arg_last_qty : Quantity;
  arg_last_px : Price;
  arg_liquidity_side : LiquiditySide;
  arg_report_id : UUID4;
  arg_ts_event : Z;
  arg_ts_init : Z;
}.

(** Modelled from the spec: the constructor of [FillReport]
    (execution/reports) is not part of the translated sources. Its
    [commission] is a required argument: a call that leaves it out raises a
    [TypeError], after the arguments it does pass have been evaluated. *)
Definition FillReport_new (a : fill_report_args) (commission : option Money)
    : result FillReport :=
  match commission with
  | None => Raise (TypeError "FillReport() missing required argument: 'commission'")
  | Some c =>
      Ok {| fr_account_id := arg_account_id a;
            fr_instrument_id := arg_instrument_id a;
            fr_client_order_id := arg_client_order_id a;
            venue_order_id := arg_venue_order_id a;
            trade_id := arg_trade_id a;
            fr_order_side := arg_order_side a;
            last_qty := arg_last_qty a;
            last_px := arg_last_px a;
            commission := c;
            liquidity_side := arg_liquidity_side a;
            fr_report_id := arg_report_id a;
            ts_event := arg_ts_event a;
            fr_ts_init := arg_ts_init a |}
  end.

(** [millis_to_nanos(int(expiration)) if expiration else None] *)
Definition parse_expire_time (expiration : string) : result (option Z) :=
  if truthy expiration then
    ms ← int_of_str expiration;
    ns ← millis_to_nanos ms;
    Ok (Some ns)
  else Ok None.

(** ** [PolymarketUserOrder] *)

Record PolymarketUserOrder : Type := {
  uo_asset_id : string;
  uo_associate_trades : option (list string);
  uo_created_at : string;
  uo_expiration : string;
  uo_id : string;
  uo_maker_address : string;
  uo_market : string;
  uo_order_owner : string;
  uo_order_type : PolymarketOrderType;
  uo_original_size : string;
  uo_outcome : string;
  uo_owner : string;
  uo_price : string;
  uo_side : PolymarketOrderSide;
  uo_size_matched : string;
  uo_status : PolymarketOrderStatus;
  uo_timestamp : string;
  uo_type : PolymarketEventType;
}.

Definition user_order_venue_order_id (self : PolymarketUserOrder) : VenueOrderId :=
  {| venue_order_id_value := uo_id self |}.

(** The fresh [UUID4()] is an input: [report_id]. Keyword arguments are
    evaluated in the order written, so the first failing one decides the
    exception; the constructor runs, and can raise, after all of them. *)
Definition user_order_parse_to_order_status_report
    (self : PolymarketUserOrder) (account_id : AccountId)
    (instrument : BinaryOption) (client_order_id : option ClientOrderId)
    (ts_init : Z) (report_id : UUID4) : result OrderStatusReport :=
  timestamp_ms ← int_of_str (uo_timestamp self);
  expire ← parse_expire_time (uo_expiration self);
  px ← float_of_str (uo_price self) ≫= make_price instrument;
  qty ← float_of_str (uo_original_size self) ≫= make_qty instrument;
  filled ← float_of_str (uo_size_matched self) ≫= make_qty instrument;
  accepted ← millis_to_nanos timestamp_ms;
  last ← millis_to_nanos timestamp_ms;
  OrderStatusReport_new
     {| osr_account_id := account_id;
        osr_instrument_id := id instrument;
        osr_client_order_id := client_order_id;
        osr_order_list_id := None;
        osr_venue_order_id := user_order_venue_order_id self;
        osr_order_side := parse_order_side (uo_side self);
        osr_order_type := LIMIT;
        osr_contingency_type := NO_CONTINGENCY;
        osr_time_in_force := parse_time_in_force (uo_order_type self);
        expire_time := expire;
        osr_order_status := parse_order_status (uo_status self);
        price := px;
        quantity := qty;
        filled_qty := filled;
        ts_accepted := accepted;
        ts_last := last;
        osr_report_id := report_id;
        osr_ts_init := ts_init |}.


(** ** [PolymarketUserTrade] *)

Record PolymarketUserTrade : Type := {
  ut_asset_id : string;
  ut_bucket_index : string;
  ut_fee_rate_bps : string;
  ut_id : string;
  ut_last_update : string;
  ut_maker_address : string;
  maker_orders : list PolymarketMakerOrder;
  ut_market : string;
  ut_match_time : string;
  ut_outcome : string;
  ut_owner : string;
  ut_price : string;
  ut_side : PolymarketOrderSide;
  ut_size : string;
  ut_status : PolymarketTradeStatus;
  taker_order_id : string;
  ut_timestamp : string;
  ut_trade_owner : string;
  trader_side : PolymarketLiquiditySide;
  ut_type : PolymarketEventType;
}.

Definition liqudity_side (self : PolymarketUserTrade) : LiquiditySide :=
  if bool_decide (trader_side self = MAKER) then LiquiditySide_MAKER
  else LiquiditySide_TAKER.

(** The [for] loop over an already reversed list: the first order whose
    address matches returns, running off the end raises. *)
Fixpoint scan_maker_orders (orders : list PolymarketMakerOrder)
    (maker_address : string) : result VenueOrderId :=
  match orders with
  | [] => Raise (ValueError "Invalid array of maker orders (`maker_address` not found)")
  | order :: rest =>
      if bool_decide (mo_maker_address order = maker_address)
      then Ok {| venue_order_id_value := order_id order |}
      else scan_maker_orders rest maker_address
  end.

Definition user_trade_venue_order_id (self : PolymarketUserTrade)
    (maker_address : string) : result VenueOrderId :=
  if bool_decide (trader_side self = MAKER) then
    scan_maker_orders (rev (maker_orders self)) maker_address
  else Ok {| venue_order_id_value := taker_order_id self |}.

Definition user_trade_parse_to_fill_report
    (self : PolymarketUserTrade) (account_id : AccountId)
    (instrument : BinaryOption) (client_order_id : option ClientOrderId)
    (maker_address : string) (ts_init : Z) (report_id : UUID4)
    : result FillReport :=
  vid ← user_trade_venue_order_id self maker_address;
  tid ← TradeId_new (ut_id self);
  qty ← float_of_str (ut_size self) ≫= make_qty instrument;
  px ← float_of_str (ut_price self) ≫= make_price instrument;
  ts ← int_of_str (ut_match_time self) ≫= millis_to_nanos;
  FillReport_new
     {| arg_account_id := account_id;
        arg_instrument_id := id instrument;
        arg_client_order_id := client_order_id;
        arg_venue_order_id := vid;
        arg_trade_id := tid;
        arg_order_side := parse_order_side (ut_side self);
        arg_last_qty := qty;
        arg_last_px := px;
        arg_liquidity_side := liqudity_side self;
        arg_report_id := report_id;
        arg_ts_event := ts;
        arg_ts_init := ts_init |}
     None.

(** ** [PolymarketOpenOrder] *)

Record PolymarketOpenOrder : Type := {
  oo_associate_trades : option (list string);
  oo_id : string;
  oo_status : PolymarketOrderStatus;
  oo_market : string;
  oo_original_size : string;
  oo_outcome : string;
  oo_maker_address : string;
  oo_owner : string;
  oo_price : string;
  oo_side : PolymarketOrderSide;
  oo_size_matched : string;
  oo_asset_id : string;
  oo_expiration : string;
  oo_order_type : PolymarketOrderType;
  oo_created_at : Z;
}.

Definition get_venue_order_id (self : PolymarketOpenOrder) : VenueOrderId :=
  {| venue_order_id_value := oo_id self |}.

Definition open_order_parse_to_order_status_report
    (self : PolymarketOpenOrder) (account_id : AccountId)
    (instrument : BinaryOption) (client_order_id : option ClientOrderId)
    (ts_init : Z) (report_id : UUID4) : result OrderStatusReport :=
  expire ← parse_expire_time (oo_expiration self);
  px ← float_of_str (oo_price self) ≫= make_price instrument;
  qty ← float_of_str (oo_original_size self) ≫= make_qty instrument;
  filled ← float_of_str (oo_size_matched self) ≫= make_qty instrument;
  accepted ← millis_to_nanos (oo_created_at self);
  last ← millis_to_nanos (oo_created_at self);
  OrderStatusReport_new
     {| osr_account_id := account_id;
        osr_instrument_id := id instrument;
        osr_client_order_id := client_order_id;
        osr_order_list_id := None;
        osr_venue_order_id := get_venue_order_id self;
        osr_order_side := parse_order_side (oo_side self);
        osr_order_type := LIMIT;
        osr_contingency_type := NO_CONTINGENCY;
        osr_time_in_force := parse_time_in_force (oo_order_type self);
        expire_time := expire;
        osr_order_status := parse_order_status (oo_status self);
        price := px;
        quantity := qty;
        filled_qty := filled;
        ts_accepted := accepted;
        ts_last := last;
        osr_report_id := report_id;
        osr_ts_init := ts_init |}.

End Schemas.
End Polymarket.

(* ===================================================================== *)
(** * adapters/binance/factories.py: the client factories                 *)
(* ===================================================================== *)

Module BinanceFactory.
Import Py Binance.

(** The four client classes the factories build. *)
Inductive ClientClass : Type :=
| BinanceSpotDataClient
| BinanceFuturesDataClient
| BinanceSpotExecutionClient
| BinanceFuturesExecutionClient.

(** [x or d] for [x : Optional[str]] and a string [d]. *)
Definition or_default (x : option string) (d : string) : string :=
  match x with
  | Some s => if truthy s then s else d
  | None => d
  end.

Section Create.
Context {X : Collaborators} {MessageBus Cache : Type}.

(** A constructed data or execution client: its class and the arguments its
    constructor received. (The constructors live outside [factories.py];
    nothing of what they do beyond keeping their arguments is modelled, and
    a client's own identity is not tracked.) *)
Record LiveClient : Type := {
  live_class : ClientClass;
  live_loop : Loop;
  live_client : BinanceHttpClient;
  live_msgbus : MessageBus;
  live_cache : Cache;
  live_clock : Clock;
  live_logger : Logger;
  live_instrument_provider : InstrumentProvider;
  live_account_type : BinanceAccountType;
  live_base_url_ws : string;
}.

(** The arguments of [create]; the two factories take the same ones. *)
Record create_args : Type := {
  create_loop : Loop;
  create_name : string;
  create_config : BinanceClientConfig;
  create_msgbus : MessageBus;
  create_cache : Cache;
  create_clock : Clock;
  create_logger : Logger;
}.

(** The call [get_cached_binance_http_client(loop=loop, ..., is_testnet=config.testnet)]
    both factories make. *)
Definition http_client_call (a : create_args) (base_url_http_default : string)
    : http_client_args :=
  let config := create_config a in
  {| loop := create_loop a;
     clock := create_clock a;
     logger := create_logger a;
     key := api_key config;
     secret := api_secret config;
     http_account_type := account_type config;
     base_url := Some (or_default (base_url_http config) base_url_http_default);
     is_testnet := testnet config |}.

(** The call of a provider getter both factories make. *)
Definition provider_call (a : create_args) (client : BinanceHttpClient) : provider_args :=
  {| arg_client := client;
     arg_logger := create_logger a;
     arg_account_type := account_type (create_config a);
     arg_config := instrument_provider (create_config a) |}.

Definition new_live_client (cls : ClientClass) (a : create_args)
    (client : BinanceHttpClient) (provider : InstrumentProvider)
    (base_url_ws_default : string) : LiveClient :=
  {| live_class := cls;
     live_loop := create_loop a;
     live_client := client;
     live_msgbus := create_msgbus a;
     live_cache := create_cache a;
     live_clock := create_clock a;
     live_logger := create_logger a;
     live_instrument_provider := provider;
     live_account_type := account_type (create_config a);
     live_base_url_ws := or_default (base_url_ws (create_config a)) base_url_ws_default |}.

(** [BinanceLiveDataClientFactory.create] *)
Definition BinanceLiveDataClientFactory_create (a : create_args) (s : process)
    : result LiveClient * process :=
  let config := create_config a in
  match _get_http_base_url config with
  | Raise e => (Raise e, s)
  | Ok base_url_http_default =>
    match _get_ws_base_url config with
    | Raise e => (Raise e, s)
    | Ok base_url_ws_default =>
      match get_cached_binance_http_client (http_client_call a base_url_http_default) s with
      | (Raise e, s1) => (Raise e, s1)
      | (Ok client, s1) =>
        if is_spot (account_type config) || is_margin (account_type config) then
          let '(provider, s2) :=
            get_cached_binance_spot_instrument_provider (provider_call a client) s1 in
          (Ok (new_live_client BinanceSpotDataClient a client provider
                 base_url_ws_default), s2)
        else
          let '(provider, s2) :=
            get_cached_binance_futures_instrument_provider (provider_call a client) s1 in
          (Ok (new_live_client BinanceFuturesDataClient a client provider
                 base_url_ws_default), s2)
      end
    end
  end.

(** [BinanceLiveExecClientFactory.create] *)
Definition BinanceLiveExecClientFactory_create (a : create_args) (s : process)
    : result LiveClient * process :=
  let config := create_config a in
  match _get_http_base_url config with
  | Raise e => (Raise e, s)
  | Ok base_url_http_default =>
    match _get_ws_base_url config with
    | Raise e => (Raise e, s)
    | Ok base_url_ws_default =>
      match get_cached_binance_http_client (http_client_call a base_url_http_default) s with
      | (Raise e, s1) => (Raise e, s1)
      | (Ok client, s1) =>
        if is_spot (account_type config) || is_margin (account_type config) then
          let '(provider, s2) :=
            get_cached_binance_spot_instrument_provider (provider_call a client) s1 in
          (Ok (new_live_client BinanceSpotExecutionClient a client provider
                 base_url_ws_default), s2)
        else
          let '(provider, s2) :=
            get_cached_binance_futures_instrument_provider (provider_call a client) s1 in
          (Ok (new_live_client BinanceFuturesExecutionClient a client provider
                 base_url_ws_default), s2)
      end
    end
  end.

(** ** Notions used to state further properties of the caches *)

(** The execution client class of the same market family. *)
Definition execution_class (cls : ClientClass) : ClientClass :=
  match cls with
  | BinanceSpotDataClient | BinanceSpotExecutionClient => BinanceSpotExecutionClient
  | BinanceFuturesDataClient | BinanceFuturesExecutionClient =>
      BinanceFuturesExecutionClient
  end.

Definition as_execution_client (cl : LiveClient) : LiveClient :=
  {| live_class := execution_class (live_class cl);
     live_loop := live_loop cl;
     live_client := live_client cl;
     live_msgbus := live_msgbus cl;
     live_cache := live_cache cl;
     live_clock := live_clock cl;
     live_logger := live_logger cl;
     live_instrument_provider := live_instrument_provider cl;
     live_account_type := live_account_type cl;
     live_base_url_ws := live_base_url_ws cl |}.

Definition is_spot_provider_request (r : request) : bool :=
  match r with SpotProviderRequest _ => true | _ => false end.

Definition is_futures_provider_request (r : request) : bool :=
  match r with FuturesProviderRequest _ => true | _ => false end.

(** A cached provider was built by the slot's getter from the slot's
    arguments. *)
Definition slot_built_from_key (cls : ProviderClass)
    (slot : option (provider_args * InstrumentProvider)) : Prop :=
  forall k p, slot = Some (k, p) ->
    provider_class p = cls
    /\ provider_client p = arg_client k
    /\ provider_logger p = arg_logger k
    /\ provider_account_type p = arg_account_type k
    /\ provider_config p = arg_config k.

(** Every registry entry sits under the key joined from the credentials it
    was constructed with, was allocated before [next_id], and no two entries
    are the same instance. *)
Record registry_wf (s : process) : Prop := {
  wf_key : forall ck c, HTTP_CLIENTS s !! ck = Some c ->
             ck = join_credentials (client_key c) (client_secret c);
  wf_allocated : forall ck c, HTTP_CLIENTS s !! ck = Some c ->
             (client_id c < next_id s)%nat;
  wf_distinct : forall ck1 ck2 c1 c2,
             HTTP_CLIENTS s !! ck1 = Some c1 -> HTTP_CLIENTS s !! ck2 = Some c2 ->
             client_id c1 = client_id c2 -> ck1 = ck2;
}.

End Create.
End BinanceFactory.

(* ===================================================================== *)
(** * Notions used to state further properties of the Polymarket parsers  *)
(* ===================================================================== *)

Module PolymarketNotions.
Import Py Polymarket.

Section Notions.
Context {V : Vocabulary}.

(** The open-order snapshot carrying the same data as an order update,
    with [created_at] given as a number. *)
Definition as_open_order (o : PolymarketUserOrder) (created_at : Z) : PolymarketOpenOrder :=
  {| oo_associate_trades := uo_associate_trades o;
     oo_id := uo_id o;
     oo_status := uo_status o;
     oo_market := uo_market o;
     oo_original_size := uo_original_size o;
     oo_outcome := uo_outcome o;
     oo_maker_address := uo_maker_address o;
     oo_owner := uo_owner o;
     oo_price := uo_price o;
     oo_side := uo_side o;
     oo_size_matched := uo_size_matched o;
     oo_asset_id := uo_asset_id o;
     oo_expiration := uo_expiration o;
     oo_order_type := uo_order_type o;
     oo_created_at := created_at |}.

(** A trade payload with its list of maker sub-orders replaced. *)
Definition with_maker_orders (t : PolymarketUserTrade)
    (orders : list PolymarketMakerOrder) : PolymarketUserTrade :=
  {| ut_asset_id := ut_asset_id t;
     ut_bucket_index := ut_bucket_index t;
     ut_fee_rate_bps := ut_fee_rate_bps t;
     ut_id := ut_id t;
     ut_last_update := ut_last_update t;
     ut_maker_address := ut_maker_address t;
     maker_orders := orders;
     ut_market := ut_market t;
     ut_match_time := ut_match_time t;
     ut_outcome := ut_outcome t;
     ut_owner := ut_owner t;
     ut_price := ut_price t;
     ut_side := ut_side t;
     ut_size := ut_size t;
     ut_status := ut_status t;
     taker_order_id := taker_order_id t;
     ut_timestamp := ut_timestamp t;
     ut_trade_owner := ut_trade_owner t;
     trader_side := trader_side t;
     ut_type := ut_type t |}.

End Notions.
End PolymarketNotions.

(* ===================================================================== *)
(** * setup.py: collecting the extension modules                          *)
(* ===================================================================== *)

Module Setup.

(** Paths and module names are Python [str]s, kept here as lists of
    characters. *)
Definition str : Type := list ascii.

Definition lit (s : string) : str := list_ascii_of_string s.

(** The part of the file system the scan reads: what [os.listdir] returns
    for a directory, in the order it returns it, and for each name what
    [os.path.isfile] and [os.path.isdir] answer. The tree is finite and does
    not change during the scan. *)
#[warnings="-register-all"] Inductive entry : Type :=
| File
| Directory (listing : list (str * entry))
| Special.

(** [os.path.sep] on POSIX. *)
Definition sep : ascii := "/".

(** [os.path.join(a, b)] *)
Definition join (a b : str) : str :=
  match b with
  | c :: _ => if bool_decide (c = sep) then b
              else match last a with
                   | None => b
                   | Some l => if bool_decide (l = sep) then a ++ b else a ++ sep :: b
                   end
  | [] => match last a with
          | None => []
          | Some l => if bool_decide (l = sep) then a else a ++ [sep]
          end
  end.

(** [s.endswith(suffix)] *)
Definition endswith (s suffix : str) : bool :=
  bool_decide (drop (length s - length suffix) s = suffix).

(** [s.replace(a, b)] for one-character strings [a] and [b]. *)
Definition replace (a b : ascii) (s : str) : str :=
  map (fun c => if bool_decide (c = a) then b else c) s.

(** [s[:-4]] *)
Definition drop_suffix4 (s : str) : str := take (length s - 4) s.

(** The dotted module name of a path: [path.replace(os.path.sep, ".")[:-4]]. *)
Definition module_name (path : str) : str :=
  drop_suffix4 (replace sep "." path).

(** The body of the loop of [scan_files] for one name of the listing, with
    the recursive call on a sub-directory unfolded into the loop over its
    listing. [files] is the list object being appended to. *)
Fixpoint scan_entry (path : str) (e : entry) (files : list str) : list str :=
  match e with
  | File => if endswith path (lit ".pyx") then files ++ [module_name path] else files
  | Directory listing =>
      fold_left (fun files item => scan_entry (join path (fst item)) (snd item) files)
        listing files
  | Special => files
  end.

(** [scan_files(directory, files)] for a directory with the given listing:
    the state of the list [files] when the call returns (the call returns
    that same list object). *)
Definition scan_files (directory : str) (listing : list (str * entry))
    (files : list str) : list str :=
  fold_left (fun files item => scan_entry (join directory (fst item)) (snd item) files)
    listing files.

(** [os.listdir] of a top-level directory name: the listing when the name
    is a directory of the working directory, an [OSError] otherwise. *)
Inductive os_result (A : Type) : Type :=
| Done (a : A)
| OSError (path : str).
Arguments Done {A} a.
Arguments OSError {A} path.

Fixpoint listdir (cwd : list (str * entry)) (directory : str)
    : os_result (list (str * entry)) :=
  match cwd with
  | [] => OSError directory
  | (name, e) :: rest =>
      if bool_decide (name = directory) then
        match e with
        | Directory listing => Done listing
        | _ => OSError directory
        end
      else listdir rest directory
  end.

(** [scan_directories(directories)]. Every call [scan_files(directory)]
    leaves out [files], so they all append to the one list object that is
    the parameter's default value; [default_files] is the content of that
    object before the call. The result is [file_names] and the content of
    the default list afterwards. *)
Fixpoint scan_directories_from (cwd : list (str * entry)) (directories : list str)
    (file_names default_files : list str) : os_result (list str) * list str :=
  match directories with
  | [] => (Done file_names, default_files)
  | directory :: rest =>
      match listdir cwd directory with
      | OSError p => (OSError p, default_files)
      | Done listing =>
          let files := scan_files directory listing default_files in
          scan_directories_from cwd rest (file_names ++ files) files
      end
  end.

Definition scan_directories (cwd : list (str * entry)) (directories : list str)
    (default_files : list str) : os_result (list str) * list str :=
  scan_directories_from cwd directories [] default_files.

(** [setuptools.Extension(ext_name, [ext_path], include_dirs=["."])] *)
Record Extension : Type := {
  ext_name : str;
  ext_sources : list str;
  ext_include_dirs : list str;
}.

Definition ext_path (name : str) : str := replace "." sep name ++ lit ".pyx".

Definition make_extension (name : str) : Extension :=
  {| ext_name := name; ext_sources := [ext_path name]; ext_include_dirs := [lit "."] |}.

Definition INV_TRADER : str := lit "inv_trader".
Definition TEST_KIT : str := lit "test_kit".

(** The module-level [extensions], computed when the default list of
    [scan_files] is still empty. *)
Definition extensions (cwd : list (str * entry)) : os_result (list Extension) :=
  match fst (scan_directories cwd [INV_TRADER; TEST_KIT] []) with
  | Done names => Done (map make_extension names)
  | OSError p => OSError p
  end.

(** ** Notions used to state the properties *)

(** [path] is a file below the directory [directory] with the given
    listing. *)
Inductive file_below : str -> list (str * entry) -> str -> Prop :=
| file_here directory listing name :
    In (name, File) listing ->
    file_below directory listing (join directory name)
| file_deeper directory listing name sub path :
    In (name, Directory sub) listing ->
    file_below (join directory name) sub path ->
    file_below directory listing path.

(** What a scan of the directories finds, each directory scanned with a
    fresh list. *)
Fixpoint found (cwd : list (str * entry)) (directories : list str) : list (list str) :=
  match directories with
  | [] => []
  | directory :: rest =>
      match listdir cwd directory with
      | Done listing => scan_files directory listing [] :: found cwd rest
      | OSError _ => []
      end
  end.

(** The names [scan_directories] collects when every directory is listed
    without error: after each directory, everything the shared list holds so
    far. *)
Fixpoint accumulated (so_far : list str) (per_directory : list (list str)) : list str :=
  match per_directory with
  | [] => []
  | files :: rest => (so_far ++ files) ++ accumulated (so_far ++ files) rest
  end.

End Setup.

(* ===================================================================== *)
(** * Concrete inputs                                                     *)
(* ===================================================================== *)

Module BinanceExamples.
Import Py Binance.

(** A concrete choice of collaborators: loggers and provider configurations
    are told apart by a number. *)
Definition example_collaborators : Collaborators :=
  {| Loop := unit; Clock := unit; Logger := nat; InstrumentProviderConfig := nat;
     Logger_eq_dec := Nat.eq_dec; InstrumentProviderConfig_eq_dec := Nat.eq_dec |}.

Definition example_config (a : BinanceAccountType) (is_test regional : bool)
    : @BinanceClientConfig example_collaborators :=
  {| api_key := None; api_secret := None; account_type := a;
     base_url_http := None; base_url_ws := None;
     us := regional; testnet := is_test;
     instrument_provider := (0%nat : @InstrumentProviderConfig example_collaborators) |}.

(** A call of [get_cached_binance_http_client] with explicit credentials. *)
Definition example_http_args (lg : nat) (k sec : string) (a : BinanceAccountType)
    (url : option string) (is_test : bool) : @http_client_args example_collaborators :=
  {| loop := (tt : @Loop example_collaborators);
     clock := (tt : @Clock example_collaborators);
     logger := (lg : @Logger example_collaborators);
     key := Some k; secret := Some sec; http_account_type := a;
     base_url := url; is_testnet := is_test |}.

Definition example_client : @BinanceHttpClient example_collaborators :=
  {| client_id := 0%nat;
     client_loop := (tt : @Loop example_collaborators);
     client_clock := (tt : @Clock example_collaborators);
     client_logger := (0%nat : @Logger example_collaborators);
     client_key := "k"; client_secret := "s";
     client_base_url := Some "https://api.binance.com" |}.

(** A call of a provider getter for [example_client]. *)
Definition example_provider_args (lg : nat) (a : BinanceAccountType) (cfg : nat)
    : @provider_args example_collaborators :=
  {| arg_client := example_client;
     arg_logger := (lg : @Logger example_collaborators);
     arg_account_type := a;
     arg_config := (cfg : @InstrumentProviderConfig example_collaborators) |}.

End BinanceExamples.

Module PolymarketExamples.
Import Py Polymarket.

(** A concrete vocabulary: the enumerations the parsers only pass along are
    collapsed to one value each. *)
Definition example_vocabulary : Vocabulary :=
  {| PolymarketEventType := unit; PolymarketOrderStatus := unit;
     PolymarketOrderType := unit; PolymarketTradeStatus := unit;
     OrderStatus := unit; TimeInForce := unit;
     parse_order_status := fun _ => tt; parse_time_in_force := fun _ => tt |}.

(** The bounds of a 64-bit fixed-point representation with nine decimal
    places. *)
Definition example_fixed_point : FixedPoint :=
  {| FIXED_PRECISION := 9;
     PRICE_MIN := -9223372036;
     PRICE_MAX := 9223372036;
     QUANTITY_MAX := 18446744073 |}.

(** An instrument with 2-decimal price and quantity precision. *)
Definition example_instrument : BinaryOption :=
  {| id := {| instrument_id_value := "TOKEN.POLYMARKET" |};
     price_precision := 2; size_precision := 2 |}.


Definition example_account : AccountId := {| account_id_value := "POLYMARKET-001" |}.
Definition example_report_id : UUID4 :=
  {| uuid_value := "2d89666b-1a1e-4a75-b193-4eb3b454c757" |}.

(** An order-update payload of the user channel. *)
Definition example_order (expiration original_size size_matched px : string)
    : @PolymarketUserOrder example_vocabulary :=
  {| uo_asset_id := "21742633143463906290569050155826241533067272736897614950488156847949938836455";
     uo_associate_trades := None;
     uo_created_at := "1725842520";
     uo_expiration := expiration;
     uo_id := "0x0f76f4dc6eaf3332f4100f2e8a0b4a927351dd64646b7bb12f37df775c657a78";
     uo_maker_address := "0xa3D82Ed56F4c68d2328Fb8c29e568Ba2cAF7d7c8";
     uo_market := "0xdd22472e552920b8438158ea7238bfadfa4f736aa4cee91a6b86c39ead110917";
     uo_order_owner := "owner";
     uo_order_type := (tt : @PolymarketOrderType example_vocabulary);
     uo_original_size := original_size;
     uo_outcome := "Yes";
     uo_owner := "owner";
     uo_price := px;
     uo_side := BUY;
     uo_size_matched := size_matched;
     uo_status := (tt : @PolymarketOrderStatus example_vocabulary);
     uo_timestamp := "1725842520000";
     uo_type := (tt : @PolymarketEventType example_vocabulary) |}.


Definition example_maker_orders : list PolymarketMakerOrder :=
  [ {| mo_maker_address := "0xAAA"; order_id := "order-1" |};
    {| mo_maker_address := "0xME"; order_id := "order-2" |};
    {| mo_maker_address := "0xME"; order_id := "order-3" |};
    {| mo_maker_address := "0xBBB"; order_id := "order-4" |} ].

(** A trade payload of the user channel. *)
Definition example_trade (side : PolymarketLiquiditySide)
    : @PolymarketUserTrade example_vocabulary :=
  {| ut_asset_id := "21742633143463906290569050155826241533067272736897614950488156847949938836455";
     ut_bucket_index := "0";
     ut_fee_rate_bps := "0";
     ut_id := "trade-1";
     ut_last_update := "1725868885";
     ut_maker_address := "0xME";
     maker_orders := example_maker_orders;
     ut_market := "0xdd22472e552920b8438158ea7238bfadfa4f736aa4cee91a6b86c39ead110917";
     ut_match_time := "1725868859";
     ut_outcome := "Yes";
     ut_owner := "owner";
     ut_price := "0.37";
     ut_side := BUY;
     ut_size := "5";
     ut_status := (tt : @PolymarketTradeStatus example_vocabulary);
     taker_order_id := "order-9";
     ut_timestamp := "1725868885871";
     ut_trade_owner := "owner";
     trader_side := side;
     ut_type := (tt : @PolymarketEventType example_vocabulary) |}.

End PolymarketExamples.

Module FactoryExamples.
Import Py Binance BinanceExamples BinanceFactory.

(** A call of [get_cached_binance_http_client] that leaves the credentials
    to the environment. *)
Definition example_env_http_args (a : BinanceAccountType) (is_test : bool)
    : @http_client_args example_collaborators :=
  {| loop := (tt : @Loop example_collaborators);
     clock := (tt : @Clock example_collaborators);
     logger := (0%nat : @Logger example_collaborators);
     key := None; secret := None; http_account_type := a;
     base_url := None; is_testnet := is_test |}.

(** A configuration with explicit credentials. *)
Definition example_credentialed_config (a : BinanceAccountType) (is_test : bool)
    (ws_override : option string) : @BinanceClientConfig example_collaborators :=
  {| api_key := Some "k"; api_secret := Some "s"; account_type := a;
     base_url_http := None; base_url_ws := ws_override;
     us := false; testnet := is_test;
     instrument_provider := (0%nat : @InstrumentProviderConfig example_collaborators) |}.

Definition example_create_args (config : @BinanceClientConfig example_collaborators)
    : @create_args example_collaborators unit unit :=
  {| create_loop := (tt : @Loop example_collaborators);
     create_name := "BINANCE";
     create_config := config;
     create_msgbus := tt;
     create_cache := tt;
     create_clock := (tt : @Clock example_collaborators);
     create_logger := (0%nat : @Logger example_collaborators) |}.

(** The client the first call with key ["a|b"] and secret ["c"] builds in
    the initial process. *)
Definition example_collision_client : @BinanceHttpClient example_collaborators :=
  {| client_id := 0%nat;
     client_loop := (tt : @Loop example_collaborators);
     client_clock := (tt : @Clock example_collaborators);
     client_logger := (0%nat : @Logger example_collaborators);
     client_key := "a|b"; client_secret := "c";
     client_base_url := None |}.

End FactoryExamples.

Module SetupExamples.
Import Setup.

(** A working directory with the two package directories. *)
Definition example_tree : list (str * entry) :=
  [ (lit "inv_trader",
     Directory [ (lit "core", Directory [ (lit "precondition.pyx", File);
                                          (lit "precondition.pxd", File) ]);
                 (lit "model", Directory [ (lit "enums.pyx", File) ]);
                 (lit "__init__.py", File) ]);
    (lit "test_kit", Directory [ (lit "stubs.pyx", File) ]);
    (lit "README.md", File) ].

End SetupExamples.

(* ===================================================================== *)
(** * Properties of the Binance factories                                 *)
(* ===================================================================== *)

Module BinanceProofs.
Import Py Binance BinanceExamples.

Section Resolver.
Context {X : Collaborators}.

(** C6: for either value of the regional flag (and whatever the other
    configuration fields are), resolving the WebSocket base URL of
    coin-margined futures on the test network raises the
    unsupported-combination [ValueError] and returns no URL. *)
Theorem ws_testnet_futures_coin_fails
    (k sec h w : option string) (regional : bool) (ip : InstrumentProviderConfig) :
  _get_ws_base_url
    {| api_key := k; api_secret := sec; account_type := FUTURES_COIN;
       base_url_http := h; base_url_ws := w; us := regional; testnet := true;
       instrument_provider := ip |}
  = Raise (ValueError "no testnet for COIN-M futures").
Proof. reflexivity. Qed.

(** C5 (as amended): on the test network spot and margin resolve to one
    shared HTTP host and one shared WebSocket host; the two futures
    sub-markets resolve to one and the same HTTP host, different from the
    spot/margin one; USDT-margined futures has its own WebSocket host. *)
Theorem testnet_hosts (config : BinanceClientConfig) :
  testnet config = true ->
  match account_type config with
  | SPOT | MARGIN =>
      _get_http_base_url config = Ok "https://testnet.binance.vision/api"
      /\ _get_ws_base_url config = Ok "wss://testnet.binance.vision"
  | FUTURES_USDT =>
      _get_http_base_url config = Ok "https://testnet.binancefuture.com"
      /\ _get_ws_base_url config = Ok "wss://stream.binancefuture.com"
  | FUTURES_COIN =>
      _get_http_base_url config = Ok "https://testnet.binancefuture.com"
  end.
Proof.
  intros Ht. unfold _get_http_base_url, _get_ws_base_url. rewrite Ht.
  destruct (account_type config); split || idtac; reflexivity.
Qed.

End Resolver.

Lemma testnet_hosts_witness :
  _get_http_base_url (example_config FUTURES_COIN true false)
  = Ok "https://testnet.binancefuture.com".
Proof. exact (testnet_hosts (example_config FUTURES_COIN true false) eq_refl). Defined.

(** C5 fails as stated: on the test network the USDT-margined and the
    coin-margined futures sub-markets get the same HTTP host. *)
Lemma testnet_futures_share_http_host :
  _get_http_base_url (example_config FUTURES_USDT true false)
  = _get_http_base_url (example_config FUTURES_COIN true false)
  /\ _get_http_base_url (example_config FUTURES_COIN true false)
     = Ok "https://testnet.binancefuture.com".
Proof. split; reflexivity. Qed.


Section Cache.
Context {X : Collaborators}.

(** *** What one call of [get_cached_binance_http_client] does *)

Lemma http_client_failure (a : http_client_args) (s : process) (e : exception) :
  registry_key a s = Raise e ->
  get_cached_binance_http_client a s = (Raise e, s).
Proof.
  unfold registry_key, get_cached_binance_http_client.
  destruct (or_else (key a) _) as [k|e1]; cbn; [|congruence].
  destruct (or_else (secret a) _) as [sec|e2]; cbn; congruence.
Qed.

Lemma http_client_hit (a : http_client_args) (s : process) (ck : string)
    (c : BinanceHttpClient) :
  registry_key a s = Ok ck ->
  HTTP_CLIENTS s !! ck = Some c ->
  get_cached_binance_http_client a s = (Ok c, s).
Proof.
  unfold registry_key, get_cached_binance_http_client.
  destruct (or_else (key a) _) as [k|e1]; cbn; [|congruence].
  destruct (or_else (secret a) _) as [sec|e2]; cbn; [|congruence].
  intros [= <-] Hc. rewrite Hc. cbn. rewrite Hc. reflexivity.
Qed.

Lemma http_client_miss (a : http_client_args) (s : process) (ck : string) :
  registry_key a s = Ok ck ->
  HTTP_CLIENTS s !! ck = None ->
  exists (c : BinanceHttpClient) (s' : process),
    get_cached_binance_http_client a s = (Ok c, s')
    /\ client_id c = next_id s
    /\ client_base_url c = base_url a
    /\ HTTP_CLIENTS s' = <[ck := c]> (HTTP_CLIENTS s)
    /\ constructed s' = NewHttpClient ck c :: constructed s
    /\ environ s' = environ s
    /\ next_id s' = S (next_id s)
    /\ spot_provider_cache s' = spot_provider_cache s
    /\ futures_provider_cache s' = futures_provider_cache s.
Proof.
  unfold registry_key, get_cached_binance_http_client.
  destruct (or_else (key a) _) as [k|e1]; cbn; [|congruence].
  destruct (or_else (secret a) _) as [sec|e2]; cbn; [|congruence].
  intros [= <-] Hc. rewrite Hc. cbn. rewrite lookup_insert_eq.
  eexists _, _. repeat split; reflexivity.
Qed.

(** The three cases together: the state after a call. *)
Lemma http_client_step (a : http_client_args) (s : process) :
  let s' := snd (get_cached_binance_http_client a s) in
  s' = s
  \/ exists ck c, registry_key a s = Ok ck
       /\ HTTP_CLIENTS s !! ck = None
       /\ HTTP_CLIENTS s' = <[ck := c]> (HTTP_CLIENTS s)
       /\ constructed s' = NewHttpClient ck c :: constructed s
       /\ environ s' = environ s
       /\ next_id s' = S (next_id s)
       /\ spot_provider_cache s' = spot_provider_cache s
       /\ futures_provider_cache s' = futures_provider_cache s.
Proof.
  cbn. destruct (registry_key a s) as [ck|e] eqn:Hk.
  - destruct (HTTP_CLIENTS s !! ck) as [c|] eqn:Hc.
    + left. by rewrite (http_client_hit a s ck c).
    + right. destruct (http_client_miss a s ck Hk Hc) as (c & s' & -> & _ & _ & H).
      exists ck, c. by cbn.
  - left. by rewrite (http_client_failure a s e).
Qed.

(** *** What one call of a provider getter does *)

Lemma spot_provider_hit (a : provider_args) (s : process) (p : InstrumentProvider) :
  cache_hit (spot_provider_cache s) a = Some p ->
  get_cached_binance_spot_instrument_provider a s = (p, s).
Proof.
  unfold cache_hit, get_cached_binance_spot_instrument_provider, lru_cache_1.
  destruct (spot_provider_cache s) as [[ca v]|]; [|done].
  destruct (same_provider_args ca a); congruence.
Qed.

Lemma spot_provider_miss (a : provider_args) (s : process) :
  cache_hit (spot_provider_cache s) a = None ->
  get_cached_binance_spot_instrument_provider a s
  = (let '(p, s') := new_provider BinanceSpotInstrumentProvider a s in
     (p, set_spot_provider_cache (Some (a, p)) s')).
Proof.
  unfold cache_hit, get_cached_binance_spot_instrument_provider, lru_cache_1.
  destruct (spot_provider_cache s) as [[ca v]|]; [|done].
  destruct (same_provider_args ca a); [congruence|done].
Qed.

Lemma futures_provider_hit (a : provider_args) (s : process) (p : InstrumentProvider) :
  cache_hit (futures_provider_cache s) a = Some p ->
  get_cached_binance_futures_instrument_provider a s = (p, s).
Proof.
  unfold cache_hit, get_cached_binance_futures_instrument_provider, lru_cache_1.
  destruct (futures_provider_cache s) as [[ca v]|]; [|done].
  destruct (same_provider_args ca a); congruence.
Qed.

Lemma futures_provider_miss (a : provider_args) (s : process) :
  cache_hit (futures_provider_cache s) a = None ->
  get_cached_binance_futures_instrument_provider a s
  = (let '(p, s') := new_provider BinanceFuturesInstrumentProvider a s in
     (p, set_futures_provider_cache (Some (a, p)) s')).
Proof.
  unfold cache_hit, get_cached_binance_futures_instrument_provider, lru_cache_1.
  destruct (futures_provider_cache s) as [[ca v]|]; [|done].
  destruct (same_provider_args ca a); [congruence|done].
Qed.

Lemma same_provider_args_trans (a b c : provider_args) :
  same_provider_args a b = true ->
  same_provider_args b c = same_provider_args a c.
Proof.
  unfold same_provider_args. intros H.
  repeat (apply andb_prop in H as [H ?]).
  repeat match goal with
         | E : bool_decide _ = true |- _ => apply bool_decide_eq_true in E; rewrite E
         end.
  reflexivity.
Qed.

(** *** Invariants of every state the process reaches *)

Lemma initial_invariant (env : gmap string string) :
  process_invariant (initial_process env).
Proof. split; cbn; [intros k; by rewrite lookup_empty | done | done]. Qed.

Lemma slot_allocated_mono (n n' : nat) slot :
  (n <= n')%nat -> slot_allocated n slot -> slot_allocated n' slot.
Proof. intros Hn H a p E. specialize (H a p E). lia. Qed.

Lemma step_invariant (r : request) (s : process) :
  process_invariant s -> process_invariant (step r s).
Proof.
  intros [Hc Hs Hf]. destruct r as [a|a|a]; cbn.
  - destruct (http_client_step a s)
      as [->|(ck & c & Hk & Hn & Hm & Hl & He & Hi & Hsp & Hfu)]; [done|].
    cbn in Hm, Hl, Hi, Hsp, Hfu. split.
    + intros k'. rewrite Hm, Hl. cbn. rewrite lookup_insert. case_decide as E; subst.
      * rewrite bool_decide_eq_true_2 by done. rewrite Hc, Hn. done.
      * rewrite bool_decide_eq_false_2 by done. apply Hc.
    + rewrite Hi, Hsp. eapply slot_allocated_mono; [|exact Hs]. lia.
    + rewrite Hi, Hfu. eapply slot_allocated_mono; [|exact Hf]. lia.
  - destruct (cache_hit (spot_provider_cache s) a) as [p|] eqn:E.
    + by rewrite (spot_provider_hit a s p E).
    + rewrite (spot_provider_miss a s E). split; cbn.
      * done.
      * intros a' p' [= <- <-]. cbn. lia.
      * eapply slot_allocated_mono; [|exact Hf]. lia.
  - destruct (cache_hit (futures_provider_cache s) a) as [p|] eqn:E.
    + by rewrite (futures_provider_hit a s p E).
    + rewrite (futures_provider_miss a s E). split; cbn.
      * done.
      * eapply slot_allocated_mono; [|exact Hs]. lia.
      * intros a' p' [= <- <-]. cbn. lia.
Qed.

Lemma run_invariant (rs : list request) (s : process) :
  process_invariant s -> process_invariant (run rs s).
Proof.
  revert s. induction rs as [|r rs IH]; intros s Hs; [done|].
  cbn. apply IH, step_invariant, Hs.
Qed.

(** Entries of [HTTP_CLIENTS] are never removed or replaced. *)
Lemma step_keeps_clients (r : request) (s : process) (k : string) (c : BinanceHttpClient) :
  HTTP_CLIENTS s !! k = Some c -> HTTP_CLIENTS (step r s) !! k = Some c.
Proof.
  intros Hk. destruct r as [a|a|a]; cbn.
  - destruct (http_client_step a s) as [->|(ck & c' & _ & Hn & Hm & _)]; [done|].
    cbn in Hm. rewrite Hm. rewrite lookup_insert_ne; [done|congruence].
  - destruct (cache_hit (spot_provider_cache s) a) as [p|] eqn:E.
    + by rewrite (spot_provider_hit a s p E).
    + by rewrite (spot_provider_miss a s E).
  - destruct (cache_hit (futures_provider_cache s) a) as [p|] eqn:E.
    + by rewrite (futures_provider_hit a s p E).
    + by rewrite (futures_provider_miss a s E).
Qed.

Lemma run_keeps_clients (rs : list request) (s : process) (k : string)
    (c : BinanceHttpClient) :
  HTTP_CLIENTS s !! k = Some c -> HTTP_CLIENTS (run rs s) !! k = Some c.
Proof.
  revert s. induction rs as [|r rs IH]; intros s Hk; [done|].
  cbn. by apply IH, step_keeps_clients.
Qed.

Lemma same_provider_args_refl (a : provider_args) : same_provider_args a a = true.
Proof. unfold same_provider_args. by rewrite !bool_decide_eq_true_2. Qed.

Lemma lru_cache_1_most_recent_only
    (get : provider_args -> process -> InstrumentProvider * process)
    (slot : process -> option (provider_args * InstrumentProvider))
    (set : option (provider_args * InstrumentProvider) -> process -> process)
    (cls : ProviderClass) :
  (forall a s p, cache_hit (slot s) a = Some p -> get a s = (p, s)) ->
  (forall a s, cache_hit (slot s) a = None ->
     get a s = (let '(p, s') := new_provider cls a s in (p, set (Some (a, p)) s'))) ->
  (forall o s, slot (set o s) = o /\ next_id (set o s) = next_id s
               /\ constructed (set o s) = constructed s) ->
  forall s a1 a2,
    slot_allocated (next_id s) (slot s) ->
    most_recent_only get slot s a1 a2.
Proof.
  intros Hhit Hmiss Hset s a1 a2 Hs. unfold most_recent_only.
  assert (exists p1 s1 ca, get a1 s = (p1, s1) /\ slot s1 = Some (ca, p1)
            /\ same_provider_args ca a1 = true
            /\ (provider_id p1 < next_id s1)%nat) as (p1 & s1 & ca & -> & Hslot & Hca & Hid).
  { destruct (cache_hit (slot s) a1) as [p|] eqn:E.
    - rewrite (Hhit _ _ _ E). unfold cache_hit in E.
      destruct (slot s) as [[ca v]|] eqn:Hsl; [|done].
      destruct (same_provider_args ca a1) eqn:Hsame; [|done].
      injection E as ->. exists p, s, ca. repeat split; try done. by eapply Hs.
    - rewrite (Hmiss _ _ E). cbn.
      destruct (Hset (Some (a1, fst (new_provider cls a1 s))) (snd (new_provider cls a1 s)))
        as (H1 & H2 & H3).
      eexists _, _, a1. split; [reflexivity|]. cbn in *.
      rewrite H1, H2. split; [done|]. split; [apply same_provider_args_refl|cbn; lia]. }
  assert (cache_hit (slot s1) a2 = if same_provider_args a1 a2 then Some p1 else None) as E.
  { unfold cache_hit. rewrite Hslot. by rewrite (same_provider_args_trans ca a1 a2 Hca). }
  destruct (same_provider_args a1 a2).
  - by rewrite (Hhit _ _ _ E).
  - rewrite (Hmiss _ _ E). cbn.
    destruct (Hset (Some (a2, fst (new_provider cls a2 s1))) (snd (new_provider cls a2 s1)))
      as (H1 & H2 & H3).
    cbn in *. rewrite H1, H3. split; [lia|]. split; done.
Qed.

(** C8: in a process started from the empty registry, take any two calls of
    [get_cached_binance_http_client] that resolve to the same credential key
    (whatever requests are served before and between them). Both return
    the same client instance, that key's client has been constructed exactly
    once (after the first call and still after the second), and every entry
    the registry held before is still there, unchanged. *)
Theorem http_client_created_once
    (env : gmap string string) (rs1 rs2 : list request)
    (a1 a2 : http_client_args) (ck : string)
    (r1 r2 : result BinanceHttpClient) (s1 s2 : process) :
  get_cached_binance_http_client a1 (run rs1 (initial_process env)) = (r1, s1) ->
  get_cached_binance_http_client a2 (run rs2 s1) = (r2, s2) ->
  registry_key a1 (run rs1 (initial_process env)) = Ok ck ->
  registry_key a2 (run rs2 s1) = Ok ck ->
  exists c : BinanceHttpClient,
    r1 = Ok c /\ r2 = Ok c
    /\ http_constructions ck (constructed s1) = 1%nat
    /\ http_constructions ck (constructed s2) = 1%nat
    /\ forall k c', HTTP_CLIENTS (run rs1 (initial_process env)) !! k = Some c' ->
                    HTTP_CLIENTS s2 !! k = Some c'.
Proof.
  set (s0 := run rs1 (initial_process env)).
  intros H1 H2 K1 K2.
  assert (process_invariant s0) as I0 by apply run_invariant, initial_invariant.
  assert (process_invariant s1) as I1.
  { replace s1 with (step (HttpClientRequest a1) s0) by (cbn; by rewrite H1).
    by apply step_invariant. }
  assert (forall k c', HTTP_CLIENTS s0 !! k = Some c' -> HTTP_CLIENTS s1 !! k = Some c') as M1.
  { intros k c' Hk.
    replace s1 with (step (HttpClientRequest a1) s0) by (cbn; by rewrite H1).
    by apply step_keeps_clients. }
  assert (exists c, r1 = Ok c /\ HTTP_CLIENTS s1 !! ck = Some c) as (c & -> & Hc).
  { destruct (HTTP_CLIENTS s0 !! ck) as [c|] eqn:E.
    - rewrite (http_client_hit a1 s0 ck c K1 E) in H1. injection H1 as <- <-. eauto.
    - destruct (http_client_miss a1 s0 ck K1 E) as (c & s' & Hg & _ & _ & Hm & _).
      rewrite Hg in H1. injection H1 as <- <-. exists c. split; [done|].
      rewrite Hm. apply lookup_insert_eq. }
  pose proof (run_keeps_clients rs2 s1 ck c Hc) as Hc2.
  rewrite (http_client_hit a2 _ ck c K2 Hc2) in H2. injection H2 as <- <-.
  exists c. repeat split.
  - rewrite (inv_counted _ I1). by rewrite Hc.
  - rewrite (inv_counted _ (run_invariant rs2 s1 I1)). by rewrite Hc2.
  - intros k c' Hk. by apply run_keeps_clients, M1.
Qed.

(** C9: with explicit, non-empty key and secret whose credential key is
    already in the registry, the call returns the cached client and leaves
    the state alone, whatever its loop, clock, logger, account type, base URL
    and test-network flag are: two such calls return the identical
    instance. *)
Theorem cached_client_depends_on_credentials_only
    (s : process) (a1 a2 : http_client_args) (k sec : string) (c : BinanceHttpClient) :
  key a1 = Some k -> secret a1 = Some sec ->
  key a2 = Some k -> secret a2 = Some sec ->
  k <> EmptyString -> sec <> EmptyString ->
  HTTP_CLIENTS s !! join_credentials k sec = Some c ->
  get_cached_binance_http_client a1 s = (Ok c, s)
  /\ get_cached_binance_http_client a2 s = (Ok c, s).
Proof.
  intros K1 S1 K2 S2 Hk Hsec Hc.
  assert (forall a, key a = Some k -> secret a = Some sec ->
            registry_key a s = Ok (join_credentials k sec)) as R.
  { intros a Ka Sa. unfold registry_key. rewrite Ka, Sa. cbn.
    destruct k; [done|]. destruct sec; [done|]. reflexivity. }
  split; eapply http_client_hit; eauto.
Qed.

(** C4 (as amended): each provider getter caches only its most recent
    provider, keyed by the whole argument tuple (client identity, logger,
    account type, configuration). Of two calls in a row, in any state the
    process reaches, the second returns the first one's instance without
    constructing anything when the tuples are equal; otherwise it constructs
    a new provider, distinct from the first, which takes the cache slot. *)
Theorem provider_cache_keeps_most_recent_only
    (env : gmap string string) (rs : list request) (a1 a2 : provider_args) :
  most_recent_only get_cached_binance_spot_instrument_provider
    spot_provider_cache (run rs (initial_process env)) a1 a2
  /\ most_recent_only get_cached_binance_futures_instrument_provider
       futures_provider_cache (run rs (initial_process env)) a1 a2.
Proof.
  pose proof (run_invariant rs _ (initial_invariant env)) as [_ Hs Hf].
  split.
  - eapply (lru_cache_1_most_recent_only _ _ set_spot_provider_cache
              BinanceSpotInstrumentProvider); try done.
    + apply spot_provider_hit.
    + apply spot_provider_miss.
  - eapply (lru_cache_1_most_recent_only _ _ set_futures_provider_cache
              BinanceFuturesInstrumentProvider); try done.
    + apply futures_provider_hit.
    + apply futures_provider_miss.
Qed.

End Cache.

(** *** Closed instances *)

Lemma http_client_created_once_witness :
  let a1 := example_http_args 0 "k" "s" SPOT (Some "https://api.binance.com") false in
  let a2 := example_http_args 1 "k" "s" FUTURES_USDT (Some "https://testnet.binancefuture.com") true in
  let rs2 := [SpotProviderRequest (example_provider_args 0 SPOT 0);
              HttpClientRequest (example_http_args 0 "k2" "s2" MARGIN None false)] in
  let out1 := get_cached_binance_http_client a1 (run [] (initial_process ∅)) in
  let out2 := get_cached_binance_http_client a2 (run rs2 (snd out1)) in
  exists c, fst out1 = Ok c /\ fst out2 = Ok c
    /\ http_constructions "k|s" (constructed (snd out1)) = 1%nat
    /\ http_constructions "k|s" (constructed (snd out2)) = 1%nat
    /\ forall k c', HTTP_CLIENTS (run [] (initial_process ∅)) !! k = Some c' ->
                    HTTP_CLIENTS (snd out2) !! k = Some c'.
Proof.
  intros a1 a2 rs2 out1 out2.
  apply (http_client_created_once ∅ [] rs2 a1 a2 "k|s" (fst out1) (fst out2)
           (snd out1) (snd out2)); reflexivity.
Defined.

Lemma cached_client_depends_on_credentials_only_witness :
  let a1 := example_http_args 0 "k" "s" SPOT (Some "https://api.binance.com") false in
  let a2 := example_http_args 1 "k" "s" FUTURES_USDT (Some "https://testnet.binancefuture.com") true in
  let s := snd (get_cached_binance_http_client a1 (initial_process ∅)) in
  get_cached_binance_http_client a1 s = (Ok example_client, s)
  /\ get_cached_binance_http_client a2 s = (Ok example_client, s).
Proof.
  intros a1 a2 s.
  apply (cached_client_depends_on_credentials_only s a1 a2 "k" "s" example_client);
    (reflexivity || discriminate).
Defined.

(** C4 fails as stated: three spot-provider requests for one client, logger
    and configuration, with account types SPOT, MARGIN, SPOT. The request for
    MARGIN evicts the SPOT provider, so the third request builds a second
    SPOT provider: two instances for one account type. *)
Lemma provider_evicted_and_rebuilt :
  let spot := example_provider_args 0 SPOT 0 in
  let margin := example_provider_args 0 MARGIN 0 in
  let '(p1, s1) := get_cached_binance_spot_instrument_provider spot (initial_process ∅) in
  let '(p2, s2) := get_cached_binance_spot_instrument_provider margin s1 in
  let '(p3, s3) := get_cached_binance_spot_instrument_provider spot s2 in
  provider_account_type p1 = SPOT
  /\ provider_account_type p3 = SPOT
  /\ provider_id p1 = 0%nat
  /\ provider_id p3 = 2%nat
  /\ spot_provider_cache s1 = Some (spot, p1)
  /\ spot_provider_cache s2 = Some (margin, p2)
  /\ p3 <> p1.
Proof. cbn. repeat split. discriminate. Qed.

End BinanceProofs.

(* ===================================================================== *)
(** * Properties of the numeric conversions                               *)
(* ===================================================================== *)

Module NumericProofs.
Import Py Polymarket.

(** ** Rounding to the nearest integer *)

Lemma div_le_cross (n1 d1 n2 d2 : Z) :
  0 < d1 -> 0 < d2 -> n1 * d2 <= n2 * d1 -> n1 / d1 <= n2 / d2.
Proof.
  intros H1 H2 H. apply Z.div_le_lower_bound; [done|].
  pose proof (Z.mul_div_le n1 d1 H1).
  assert (d1 * (n1 / d1) * d2 <= n2 * d1) by nia.
  nia.
Qed.

Lemma round_half_even_bounds (n d : Z) :
  0 < d ->
  2 * n - d <= 2 * (round_half_even n d * d) <= 2 * n + d.
Proof.
  intros Hd. unfold round_half_even.
  pose proof (Z.div_mod n d ltac:(lia)) as E.
  pose proof (Z.mod_pos_bound n d Hd) as B.
  destruct (Z.compare_spec (2 * (n mod d)) d); [destruct (Z.even (n / d))| |]; nia.
Qed.

(** At a tie the even neighbour is taken. *)
Lemma round_half_even_tie (n d : Z) :
  0 < d ->
  2 * (round_half_even n d * d) = 2 * n + d \/ 2 * (round_half_even n d * d) = 2 * n - d ->
  Z.even (round_half_even n d) = true.
Proof.
  intros Hd. unfold round_half_even.
  pose proof (Z.div_mod n d ltac:(lia)) as E.
  pose proof (Z.mod_pos_bound n d Hd) as B.
  destruct (Z.compare_spec (2 * (n mod d)) d) as [Hc|Hc|Hc].
  - destruct (Z.even (n / d)) eqn:Hev; [done|].
    intros _. rewrite Z.even_add, Hev. reflexivity.
  - intros [H|H]; nia.
  - intros [H|H]; nia.
Qed.

Lemma round_half_even_mono (n1 d1 n2 d2 : Z) :
  0 < d1 -> 0 < d2 -> n1 * d2 <= n2 * d1 ->
  round_half_even n1 d1 <= round_half_even n2 d2.
Proof.
  intros H1 H2 H.
  pose proof (round_half_even_bounds n1 d1 H1) as [_ B1].
  pose proof (round_half_even_bounds n2 d2 H2) as [B2 _].
  pose proof (round_half_even_tie n1 d1 H1) as T1.
  pose proof (round_half_even_tie n2 d2 H2) as T2.
  set (q1 := round_half_even n1 d1) in *. set (q2 := round_half_even n2 d2) in *.
  destruct (Z_le_gt_dec q1 q2) as [|Hgt]; [done|exfalso].
  assert (0 < d1 * d2) as HD by nia.
  assert ((2 * q1 - 1) * d1 * d2 <= 2 * n1 * d2) as Ha.
  { apply Z.mul_le_mono_nonneg_r; lia. }
  assert (2 * n2 * d1 <= (2 * q2 + 1) * d2 * d1) as Hb.
  { apply Z.mul_le_mono_nonneg_r; lia. }
  assert ((2 * q1 - 1) * (d1 * d2) <= (2 * q2 + 1) * (d1 * d2)) as Hq by lia.
  apply Z.mul_le_mono_pos_r in Hq; [|done].
  assert (q1 = q2 + 1) as Eq by lia.
  assert ((2 * q1 - 1) * d1 * d2 = 2 * n1 * d2) as Ea by (subst q1; lia).
  assert (2 * n2 * d1 = (2 * q2 + 1) * d2 * d1) as Eb by (subst q1; lia).
  apply Z.mul_cancel_r in Ea; [|lia]. apply Z.mul_cancel_r in Eb; [|lia].
  assert (2 * (q1 * d1) = 2 * n1 + d1) as E1 by lia.
  assert (2 * (q2 * d2) = 2 * n2 - d2) as E2 by lia.
  specialize (T1 (or_introl E1)). specialize (T2 (or_intror E2)).
  rewrite Eq, Z.even_add, T2 in T1. discriminate.
Qed.

Lemma round_half_even_exact (c d : Z) : 0 < d -> round_half_even (c * d) d = c.
Proof.
  intros Hd. unfold round_half_even.
  rewrite Z.div_mul, Z.mod_mul by lia.
  destruct (Z.compare_spec (2 * 0) d); lia.
Qed.


Lemma round_half_away_mono (n1 n2 d : Z) :
  0 < d -> n1 <= n2 -> round_half_away n1 d <= round_half_away n2 d.
Proof.
  intros Hd H. unfold round_half_away.
  destruct (Z.leb_spec 0 n1), (Z.leb_spec 0 n2); try lia.
  - apply Z.div_le_mono; lia.
  - assert (0 <= (2 * - n1 + d) / (2 * d)) by (apply Z.div_pos; lia).
    assert (0 <= (2 * n2 + d) / (2 * d)) by (apply Z.div_pos; lia). lia.
  - enough ((2 * - n2 + d) / (2 * d) <= (2 * - n1 + d) / (2 * d)) by lia.
    apply Z.div_le_mono; lia.
Qed.


(** ** The nearest binary64 *)

Local Abbreviation B := (2 ^ SUBNORMAL_BITS).

Lemma B_pos : 0 < B.
Proof. reflexivity. Qed.


Lemma ulp_exponent_nonneg (n d : Z) : 0 <= ulp_exponent n d.
Proof. unfold ulp_exponent. lia. Qed.

Lemma ulp_exponent_mono (n1 d1 n2 d2 : Z) :
  0 < d1 -> 0 < d2 -> n1 * d2 <= n2 * d1 ->
  ulp_exponent n1 d1 <= ulp_exponent n2 d2.
Proof.
  intros H1 H2 H. unfold ulp_exponent.
  apply Z.max_le_compat_l, Z.sub_le_mono_r, Z.log2_le_mono, div_le_cross; try done.
  pose proof B_pos. nia.
Qed.

(** [n / d < 2^(k + 53)], in units of [2^-1074]. *)
Lemma ulp_exponent_upper (n d : Z) :
  0 <= n -> 0 < d -> n * B < d * 2 ^ (ulp_exponent n d + 53).
Proof.
  intros Hn Hd. unfold ulp_exponent.
  set (x := n * B / d).
  assert (0 <= x) as Hx by (apply Z.div_pos; [pose proof B_pos; nia|done]).
  assert (x < 2 ^ (Z.max 0 (Z.log2 x - 52) + 53)) as Hlt.
  { destruct (Z.eq_dec x 0) as [->|Hne].
    - apply Z.pow_pos_nonneg; lia.
    - pose proof (Z.log2_spec x ltac:(lia)) as [_ Hs].
      eapply Z.lt_le_trans; [exact Hs|].
      apply Z.pow_le_mono_r; lia. }
  pose proof (Z.div_mod (n * B) d ltac:(lia)) as E.
  pose proof (Z.mod_pos_bound (n * B) d Hd) as Bd.
  fold x in E. nia.
Qed.

(** Above the subnormal range, [2^(k + 52) <= n / d]. *)
Lemma ulp_exponent_lower (n d : Z) :
  0 <= n -> 0 < d -> 0 < ulp_exponent n d ->
  d * 2 ^ (ulp_exponent n d + 52) <= n * B.
Proof.
  intros Hn Hd. unfold ulp_exponent.
  set (x := n * B / d). intros Hk.
  assert (0 < Z.log2 x) as Hl by lia.
  assert (0 < x) as Hx.
  { destruct (Z.le_gt_cases x 0) as [Hle|]; [|lia].
    rewrite (Z.log2_nonpos x Hle) in Hl. lia. }
  pose proof (Z.log2_spec x Hx) as [Hs _].
  replace (Z.max 0 (Z.log2 x - 52) + 52) with (Z.log2 x) by lia.
  pose proof (Z.mul_div_le (n * B) d Hd) as E. fold x in E. nia.
Qed.

Lemma pow_k_pos (n d : Z) : 0 < 2 ^ ulp_exponent n d.
Proof. apply Z.pow_pos_nonneg; [lia|apply ulp_exponent_nonneg]. Qed.

Lemma mantissa_nonneg (n d : Z) :
  0 <= n -> 0 < d ->
  0 <= round_half_even (n * B) (d * 2 ^ ulp_exponent n d).
Proof.
  intros Hn Hd. pose proof (pow_k_pos n d).
  rewrite <- (round_half_even_exact 0 (d * 2 ^ ulp_exponent n d)) by nia.
  apply round_half_even_mono; pose proof B_pos; nia.
Qed.

Lemma mantissa_upper (n d : Z) :
  0 <= n -> 0 < d ->
  round_half_even (n * B) (d * 2 ^ ulp_exponent n d) <= 2 ^ 53.
Proof.
  intros Hn Hd. pose proof (pow_k_pos n d) as Hk.
  assert (0 < d * 2 ^ ulp_exponent n d) as HD by nia.
  rewrite <- (round_half_even_exact (2 ^ 53) (d * 2 ^ ulp_exponent n d)) by done.
  apply round_half_even_mono; try done.
  apply Z.mul_le_mono_nonneg_r; [lia|].
  pose proof (ulp_exponent_upper n d Hn Hd) as U.
  rewrite Z.pow_add_r in U by (pose proof (ulp_exponent_nonneg n d); lia). lia.
Qed.

Lemma mantissa_lower (n d : Z) :
  0 <= n -> 0 < d -> 0 < ulp_exponent n d ->
  2 ^ 52 <= round_half_even (n * B) (d * 2 ^ ulp_exponent n d).
Proof.
  intros Hn Hd Hpos. pose proof (pow_k_pos n d) as Hk.
  assert (0 < d * 2 ^ ulp_exponent n d) as HD by nia.
  rewrite <- (round_half_even_exact (2 ^ 52) (d * 2 ^ ulp_exponent n d)) by done.
  apply round_half_even_mono; try done.
  apply Z.mul_le_mono_nonneg_r; [lia|].
  pose proof (ulp_exponent_lower n d Hn Hd Hpos) as L.
  rewrite Z.pow_add_r in L by lia. lia.
Qed.


Lemma nearest_units_nonneg (n d : Z) : 0 <= n -> 0 < d -> 0 <= nearest_units n d.
Proof.
  intros Hn Hd. unfold nearest_units.
  pose proof (mantissa_nonneg n d Hn Hd). pose proof (pow_k_pos n d). nia.
Qed.

Lemma nearest_units_mono (n1 d1 n2 d2 : Z) :
  0 <= n1 -> 0 < d1 -> 0 < d2 -> n1 * d2 <= n2 * d1 ->
  nearest_units n1 d1 <= nearest_units n2 d2.
Proof.
  intros Hn1 H1 H2 H.
  assert (0 <= n2) as Hn2 by nia.
  pose proof (ulp_exponent_mono n1 d1 n2 d2 H1 H2 H) as Hk.
  pose proof (ulp_exponent_nonneg n1 d1) as Hk1.
  pose proof (pow_k_pos n1 d1) as P1. pose proof (pow_k_pos n2 d2) as P2.
  unfold nearest_units.
  destruct (Z.eq_dec (ulp_exponent n1 d1) (ulp_exponent n2 d2)) as [E|E].
  - rewrite E in *. apply Z.mul_le_mono_nonneg_r; [lia|].
    apply round_half_even_mono; [nia|nia|].
    pose proof B_pos as HB.
    assert (n1 * d2 * (B * 2 ^ ulp_exponent n2 d2) <= n2 * d1 * (B * 2 ^ ulp_exponent n2 d2))
      by (apply Z.mul_le_mono_nonneg_r; nia).
    lia.
  - pose proof (mantissa_upper n1 d1 Hn1 H1) as U.
    pose proof (mantissa_lower n2 d2 Hn2 H2 ltac:(lia)) as L.
    set (k1 := ulp_exponent n1 d1) in *. set (k2 := ulp_exponent n2 d2) in *.
    assert (2 ^ 53 * 2 ^ k1 <= 2 ^ 52 * 2 ^ k2) as Hp.
    { rewrite <- !Z.pow_add_r by lia. apply Z.pow_le_mono_r; lia. }
    etransitivity; [apply Z.mul_le_mono_nonneg_r; [lia|exact U]|].
    etransitivity; [exact Hp|]. apply Z.mul_le_mono_nonneg_r; [lia|exact L].
Qed.

Lemma nearest_units_zero (d : Z) : 0 < d -> nearest_units 0 d = 0.
Proof.
  intros Hd. unfold nearest_units, ulp_exponent.
  rewrite Z.mul_0_l, Z.div_0_l by lia. cbn [Z.log2].
  replace (Z.max 0 (0 - 52)) with 0 by reflexivity.
  rewrite Z.pow_0_r, !Z.mul_1_r.
  apply (round_half_even_exact 0 d Hd).
Qed.

(** ** From a decimal to the instrument's fixed value *)


Lemma pow10_pos (k : nat) : 0 < 10 ^ Z.of_nat k.
Proof. apply Z.pow_pos_nonneg; lia. Qed.

Lemma float_of_decimal_Finite (x : decimal) (u : Z) :
  float_of_decimal x = Finite u -> u = signed_units x.
Proof.
  unfold float_of_decimal, float_of_ratio.
  destruct (_ <=? _); [discriminate|]. intros [= <-]. reflexivity.
Qed.

Lemma signed_units_mono (x y : decimal) :
  0 <= dec_digits x -> 0 <= dec_digits y ->
  decimal_le x y -> signed_units x <= signed_units y.
Proof.
  unfold decimal_le, signed_digits, signed_units. intros Hx Hy.
  pose proof (pow10_pos (dec_scale x)) as Px. pose proof (pow10_pos (dec_scale y)) as Py.
  pose proof (nearest_units_nonneg _ _ Hx Px) as Nx.
  pose proof (nearest_units_nonneg _ _ Hy Py) as Ny.
  destruct (dec_neg x), (dec_neg y); intros H.
  - enough (nearest_units (dec_digits y) (10 ^ Z.of_nat (dec_scale y))
            <= nearest_units (dec_digits x) (10 ^ Z.of_nat (dec_scale x))) by lia.
    apply nearest_units_mono; lia.
  - lia.
  - assert (dec_digits x = 0) as Ex by nia. assert (dec_digits y = 0) as Ey by nia.
    rewrite Ex, Ey, !nearest_units_zero by done. lia.
  - apply nearest_units_mono; lia.
Qed.








(** ** Formatting *)



Example format_examples :
  format_fixed {| raw := 1050; precision := 2 |} = "10.50"
  /\ format_fixed {| raw := 37; precision := 2 |} = "0.37"
  /\ format_fixed {| raw := -5; precision := 3 |} = "-0.005"
  /\ format_fixed {| raw := 0; precision := 0 |} = "0"
  /\ format_fixed {| raw := 9007199254740992; precision := 0 |} = "9007199254740992"
  /\ format_fixed {| raw := 100000; precision := 1 |} = "10000.0".
Proof. repeat apply conj; vm_compute; reflexivity. Qed.


Lemma append_cons (c : ascii) (s1 s2 : string) :
  String c s1 +:+ s2 = String c (s1 +:+ s2).
Proof. reflexivity. Qed.

Lemma append_assoc (s1 s2 s3 : string) : (s1 +:+ s2) +:+ s3 = s1 +:+ (s2 +:+ s3).
Proof.
  induction s1 as [|c s1 IH]; [done|]. rewrite !append_cons. by rewrite IH.
Qed.

















(** ** Literals *)

(** The float model against the Standard Library's [SFdiv] on a few
    literals, and the two ends of the range: the largest finite double and
    the first literal that overflows. *)
Example float_of_str_agrees_with_SpecFloat :
  units_of_float (float_of_str "0.37") = units_of_spec_float (spec_quotient 37 100)
  /\ units_of_float (float_of_str "0.1") = units_of_spec_float (spec_quotient 1 10)
  /\ units_of_float (float_of_str "10.5") = units_of_spec_float (spec_quotient 105 10)
  /\ units_of_float (float_of_str "1.005") = units_of_spec_float (spec_quotient 1005 1000)
  /\ units_of_float (float_of_str "123456.789")
     = units_of_spec_float (spec_quotient 123456789 1000)
  /\ units_of_float (float_of_str "0.000001")
     = units_of_spec_float (spec_quotient 1 1000000)
  /\ float_of_str "0.37" = Ok (Finite (6665327448508334 * 2 ^ (-54 + SUBNORMAL_BITS)))
  /\ float_of_str "179769313486231580793728971405303415079934132710037826936173778980444968292764750946649017977587207096330286416692887910946555547851940402630657488671505820681908902000708383676273854845817711531764475730270069855571366959622842914819860834936475292719074168444365510704342711559699508093042880177904174497791"
     = Ok (Finite ((2 ^ 53 - 1) * 2 ^ (971 + SUBNORMAL_BITS)))
  /\ float_of_str "179769313486231580793728971405303415079934132710037826936173778980444968292764750946649017977587207096330286416692887910946555547851940402630657488671505820681908902000708383676273854845817711531764475730270069855571366959622842914819860834936475292719074168444365510704342711559699508093042880177904174497792"
     = Ok (Infinity false).
Proof. repeat apply conj; vm_compute; reflexivity. Qed.




(** [float(s)] followed by the instrument's scaling succeeded: the result
    is the scaled literal. *)
Lemma float_then_fixed_Ok (lo hi : Z) (max_precision : nat) (s : string) (p : nat)
    (f : Fixed) :
  float_of_str s ≫= (fun v => to_fixed lo hi max_precision v p) = Ok f ->
  scaled_literal s p = Some f.
Proof.
  unfold scaled_literal. destruct (float_of_str s) as [[u|neg]|e]; cbn.
  - unfold to_fixed. destruct (_ <? _)%nat; [discriminate|].
    destruct (_ && _); [|discriminate].
    destruct (scale_units u p); [|discriminate]. cbn. by intros [= <-].
  - unfold to_fixed. destruct (_ <? _)%nat; discriminate.
  - discriminate.
Qed.

End NumericProofs.

(* ===================================================================== *)
(** * Properties of the Polymarket parsers                                *)
(* ===================================================================== *)

Module PolymarketProofs.
Import Py Polymarket PolymarketExamples NumericProofs.

(** [x ← r; k] gave [Ok]: so did [r]. *)
Lemma bind_Ok {A B} (r : result A) (k : A -> result B) (b : B) :
  r ≫= k = Ok b -> exists a, r = Ok a /\ k a = Ok b.
Proof. destruct r as [a|e]; [eauto|discriminate]. Qed.

Ltac bind_inv H :=
  let a := fresh "v" in
  let E := fresh "E" in
  apply bind_Ok in H as (a & E & H).

Section Identity.
Context {V : Vocabulary} {L : FixedPoint}.

Lemma scan_maker_orders_app (l1 l2 : list PolymarketMakerOrder) (addr : string) :
  Forall (fun o => mo_maker_address o <> addr) l1 ->
  scan_maker_orders (l1 ++ l2) addr = scan_maker_orders l2 addr.
Proof.
  induction 1 as [|o l1 Ho _ IH]; [done|].
  cbn. rewrite bool_decide_eq_false_2; done.
Qed.

Lemma scan_maker_orders_none (l : list PolymarketMakerOrder) (addr : string) :
  Forall (fun o => mo_maker_address o <> addr) l ->
  scan_maker_orders l addr
  = Raise (ValueError "Invalid array of maker orders (`maker_address` not found)").
Proof.
  intros H. rewrite <- (app_nil_r l). by rewrite scan_maker_orders_app.
Qed.

(** C2: a taker-perspective trade resolves to liquidity side TAKER and the
    payload's [taker_order_id]. A maker-perspective trade resolves to MAKER
    and to the [order_id] of the last sub-order in [maker_orders] whose
    [maker_address] is the local one (the list is scanned from its end); when
    no sub-order has that address, the resolution raises and returns no
    id. *)
Theorem trade_identity_resolution (t : PolymarketUserTrade) (maker_address : string) :
  match trader_side t with
  | TAKER =>
      liqudity_side t = LiquiditySide_TAKER
      /\ user_trade_venue_order_id t maker_address
         = Ok {| venue_order_id_value := taker_order_id t |}
  | MAKER =>
      liqudity_side t = LiquiditySide_MAKER
      /\ (forall earlier o later,
            maker_orders t = earlier ++ o :: later ->
            mo_maker_address o = maker_address ->
            Forall (fun o' => mo_maker_address o' <> maker_address) later ->
            user_trade_venue_order_id t maker_address
            = Ok {| venue_order_id_value := order_id o |})
      /\ (Forall (fun o' => mo_maker_address o' <> maker_address) (maker_orders t) ->
          user_trade_venue_order_id t maker_address
          = Raise (ValueError "Invalid array of maker orders (`maker_address` not found)"))
  end.
Proof.
  unfold liqudity_side, user_trade_venue_order_id.
  destruct (trader_side t);
    [rewrite !(bool_decide_eq_true_2 (MAKER = MAKER)) by done
    |rewrite !(bool_decide_eq_false_2 (TAKER = MAKER)) by done; done].
  split; [done|]. split.
  - intros earlier o later -> Ho Hlater.
    rewrite rev_app_distr. cbn. rewrite <- app_assoc.
    rewrite scan_maker_orders_app by (by apply List.Forall_rev).
    cbn. by rewrite bool_decide_eq_true_2.
  - intros Hnone. apply scan_maker_orders_none. by apply List.Forall_rev.
Qed.

(** Every list of sub-orders either has a last sub-order with the given
    address or has none with it. *)
Lemma last_match_or_none (l : list PolymarketMakerOrder) (addr : string) :
  (exists earlier o later,
     l = earlier ++ o :: later /\ mo_maker_address o = addr
     /\ Forall (fun o' => mo_maker_address o' <> addr) later)
  \/ Forall (fun o' => mo_maker_address o' <> addr) l.
Proof.
  induction l as [|x l IH]; [right; constructor|].
  destruct IH as [(earlier & o & later & -> & Ho & Hl)|Hnone].
  - left. exists (x :: earlier), o, later. done.
  - destruct (decide (mo_maker_address x = addr)) as [E|E].
    + left. exists [], x, l. done.
    + right. by constructor.
Qed.


End Identity.

Lemma trade_identity_resolution_witness :
  user_trade_venue_order_id (example_trade MAKER) "0xME"
  = Ok {| venue_order_id_value := "order-3" |}.
Proof.
  destruct (trade_identity_resolution (example_trade MAKER) "0xME") as (_ & Hlast & _).
  apply (Hlast [ {| mo_maker_address := "0xAAA"; order_id := "order-1" |};
                 {| mo_maker_address := "0xME"; order_id := "order-2" |} ]
               {| mo_maker_address := "0xME"; order_id := "order-3" |}
               [ {| mo_maker_address := "0xBBB"; order_id := "order-4" |} ]).
  - reflexivity.
  - reflexivity.
  - repeat constructor. discriminate.
Defined.


Section Expiry.
Context {V : Vocabulary} {L : FixedPoint}.

(** The expiry is decided by the emptiness of the [expiration] string
    alone. *)
Lemma parse_expire_time_Ok (expiration : string) (x : option Z) :
  parse_expire_time expiration = Ok x ->
  (x = None <-> expiration = EmptyString)
  /\ (expiration <> EmptyString ->
      exists ms, int_of_str expiration = Ok ms /\ x = Some (ms * 1000000)).
Proof.
  unfold parse_expire_time. destruct expiration as [|c rest]; cbn [truthy].
  - intros [= <-]. split; [done|]. intros H. by destruct H.
  - intros H. bind_inv H. bind_inv H. injection H as <-.
    unfold millis_to_nanos in E0.
    destruct (_ && _); [|discriminate]. injection E0 as <-.
    split; [split; discriminate|]. intros _. eauto.
Qed.

Lemma user_order_report_fields
    (o : PolymarketUserOrder) (account_id : AccountId) (instrument : BinaryOption)
    (client_order_id : option ClientOrderId) (ts_init : Z) (report_id : UUID4)
    (r : OrderStatusReport) :
  user_order_parse_to_order_status_report o account_id instrument client_order_id
    ts_init report_id = Ok r ->
  parse_expire_time (uo_expiration o) = Ok (expire_time r)
  /\ float_of_str (uo_price o) ≫= make_price instrument = Ok (price r)
  /\ float_of_str (uo_original_size o) ≫= make_qty instrument = Ok (quantity r)
  /\ float_of_str (uo_size_matched o) ≫= make_qty instrument = Ok (filled_qty r)
  /\ osr_order_side r = parse_order_side (uo_side o)
  /\ fixed_le (filled_qty r) (quantity r).
Proof.
  unfold user_order_parse_to_order_status_report. intros H.
  do 7 bind_inv H. unfold OrderStatusReport_new in H.
  case_bool_decide as Hle; [|discriminate]. injection H as <-. cbn in *. done.
Qed.

Lemma open_order_report_fields
    (o : PolymarketOpenOrder) (account_id : AccountId) (instrument : BinaryOption)
    (client_order_id : option ClientOrderId) (ts_init : Z) (report_id : UUID4)
    (r : OrderStatusReport) :
  open_order_parse_to_order_status_report o account_id instrument client_order_id
    ts_init report_id = Ok r ->
  parse_expire_time (oo_expiration o) = Ok (expire_time r)
  /\ float_of_str (oo_price o) ≫= make_price instrument = Ok (price r)
  /\ float_of_str (oo_original_size o) ≫= make_qty instrument = Ok (quantity r)
  /\ float_of_str (oo_size_matched o) ≫= make_qty instrument = Ok (filled_qty r)
  /\ osr_order_side r = parse_order_side (oo_side o)
  /\ fixed_le (filled_qty r) (quantity r).
Proof.
  unfold open_order_parse_to_order_status_report. intros H.
  do 6 bind_inv H. unfold OrderStatusReport_new in H.
  case_bool_decide as Hle; [|discriminate]. injection H as <-. cbn in *. done.
Qed.

(** C1 (as amended): in every report built from an order update or an
    open-order snapshot, [expire_time] is [None] exactly when the payload's
    [expiration] string is empty; any non-empty string, "0" included, is read
    as a count of milliseconds and gives that count in nanoseconds. The
    order update with side BUY, original_size "10.5", size_matched "2.0",
    price "0.37" and expiration "0", on an instrument of 2-decimal price and
    quantity precision, gives quantity 10.50, filled quantity 2.00, price
    0.37 and the expiry 0 ns. *)
Theorem expire_time_none_iff_expiration_empty :
  (forall (o : PolymarketUserOrder) account_id instrument client_order_id ts_init
          report_id (r : OrderStatusReport),
      user_order_parse_to_order_status_report o account_id instrument
        client_order_id ts_init report_id = Ok r ->
      (expire_time r = None <-> uo_expiration o = EmptyString)
      /\ (uo_expiration o <> EmptyString ->
          exists ms, int_of_str (uo_expiration o) = Ok ms
                     /\ expire_time r = Some (ms * 1000000)))
  /\ (forall (o : PolymarketOpenOrder) account_id instrument client_order_id ts_init
             report_id (r : OrderStatusReport),
      open_order_parse_to_order_status_report o account_id instrument
        client_order_id ts_init report_id = Ok r ->
      (expire_time r = None <-> oo_expiration o = EmptyString)
      /\ (oo_expiration o <> EmptyString ->
          exists ms, int_of_str (oo_expiration o) = Ok ms
                     /\ expire_time r = Some (ms * 1000000)))
  /\ (forall (o : PolymarketUserOrder) account_id instrument client_order_id ts_init
             report_id (r : OrderStatusReport),
      uo_side o = BUY ->
      uo_original_size o = "10.5" -> uo_size_matched o = "2.0" ->
      uo_price o = "0.37" -> uo_expiration o = "0" ->
      price_precision instrument = 2%nat -> size_precision instrument = 2%nat ->
      user_order_parse_to_order_status_report o account_id instrument
        client_order_id ts_init report_id = Ok r ->
      quantity r = {| raw := 1050; precision := 2 |}
      /\ filled_qty r = {| raw := 200; precision := 2 |}
      /\ price r = {| raw := 37; precision := 2 |}
      /\ osr_order_side r = OrderSide_BUY
      /\ expire_time r = Some 0).
Proof.
  split; [|split].
  - intros o a i c t u r H.
    apply user_order_report_fields in H as (H & _). by apply parse_expire_time_Ok.
  - intros o a i c t u r H.
    apply open_order_report_fields in H as (H & _). by apply parse_expire_time_Ok.
  - intros o a i c t u r Hside Hsize Hmatched Hpx Hexp Hpp Hsp H.
    apply user_order_report_fields in H as (He & Hp & Hq & Hf & Hs & _).
    rewrite Hexp in He. rewrite Hpx in Hp. rewrite Hsize in Hq.
    rewrite Hmatched in Hf. rewrite Hside in Hs.
    unfold make_price, make_qty in *.
    apply float_then_fixed_Ok in Hp, Hq, Hf. rewrite Hpp in Hp. rewrite Hsp in Hq, Hf.
    assert (Ok (expire_time r) = Ok (Some 0)) as [= Re]
      by (rewrite <- He; vm_compute; reflexivity).
    assert (scaled_literal "0.37" 2 = Some {| raw := 37; precision := 2 |}) as Ep
      by (vm_compute; reflexivity).
    assert (scaled_literal "10.5" 2 = Some {| raw := 1050; precision := 2 |}) as Eq
      by (vm_compute; reflexivity).
    assert (scaled_literal "2.0" 2 = Some {| raw := 200; precision := 2 |}) as Ef
      by (vm_compute; reflexivity).
    rewrite Ep in Hp. rewrite Eq in Hq. rewrite Ef in Hf.
    injection Hp as Rp. injection Hq as Rq. injection Hf as Rf.
    rewrite Re, <- Rp, <- Rq, <- Rf, Hs. repeat split.
Qed.

End Expiry.

Lemma expire_time_none_iff_expiration_empty_witness :
  exists r,
    user_order_parse_to_order_status_report (L := example_fixed_point)
      (example_order "0" "10.5" "2.0" "0.37")
      example_account example_instrument None 0 example_report_id = Ok r
    /\ quantity r = {| raw := 1050; precision := 2 |}
    /\ filled_qty r = {| raw := 200; precision := 2 |}
    /\ price r = {| raw := 37; precision := 2 |}
    /\ osr_order_side r = OrderSide_BUY
    /\ expire_time r = Some 0.
Proof.
  eexists. split; [vm_compute; reflexivity|].
  destruct (@expire_time_none_iff_expiration_empty example_vocabulary example_fixed_point)
    as (_ & _ & H).
  apply (H (example_order "0" "10.5" "2.0" "0.37") example_account example_instrument
           None 0 example_report_id);
    [reflexivity.. | vm_compute; reflexivity].
Defined.

(** C1 fails as stated: the order update with expiration "0" gives a report
    whose [expire_time] is the count 0, not [None]. *)
Lemma expiration_zero_is_not_none :
  exists r,
    user_order_parse_to_order_status_report (L := example_fixed_point)
      (example_order "0" "10.5" "2.0" "0.37")
      example_account example_instrument None 0 example_report_id = Ok r
    /\ expire_time r = Some 0
    /\ expire_time r <> None.
Proof. eexists. split; [vm_compute; reflexivity|]. split; [reflexivity|discriminate]. Qed.

Section Quantities.
Context {V : Vocabulary} {L : FixedPoint}.

(** C7: every report built from an order update or from an open-order
    snapshot has [filled_qty <= quantity]: the constructor of the report
    refuses a filled quantity above the quantity, so a payload whose
    [size_matched] exceeds its [original_size] gives no report. *)
Theorem filled_le_quantity :
  (forall (o : PolymarketUserOrder) account_id instrument client_order_id ts_init
          report_id (r : OrderStatusReport),
      user_order_parse_to_order_status_report o account_id instrument
        client_order_id ts_init report_id = Ok r ->
      fixed_le (filled_qty r) (quantity r))
  /\ (forall (o : PolymarketOpenOrder) account_id instrument client_order_id ts_init
             report_id (r : OrderStatusReport),
      open_order_parse_to_order_status_report o account_id instrument
        client_order_id ts_init report_id = Ok r ->
      fixed_le (filled_qty r) (quantity r)).
Proof.
  split.
  - intros o a i c t u r H.
    by apply user_order_report_fields in H as (_ & _ & _ & _ & _ & Hle).
  - intros o a i c t u r H.
    by apply open_order_report_fields in H as (_ & _ & _ & _ & _ & Hle).
Qed.



End Quantities.

Lemma filled_le_quantity_witness :
  exists r,
    user_order_parse_to_order_status_report (L := example_fixed_point)
      (example_order "0" "10.5" "2.0" "0.37")
      example_account example_instrument None 0 example_report_id = Ok r
    /\ fixed_le (filled_qty r) (quantity r).
Proof.
  eexists. split; [vm_compute; reflexivity|].
  destruct (@filled_le_quantity example_vocabulary example_fixed_point) as (H & _).
  apply (H (example_order "0" "10.5" "2.0" "0.37") example_account example_instrument
           None 0 example_report_id).
  vm_compute. reflexivity.
Defined.

(** An order update with original_size "1.0" and size_matched "2.0" gives
    no report. *)
Example overfilled_order_gives_no_report :
  exists e,
    user_order_parse_to_order_status_report (L := example_fixed_point)
      (example_order "0" "1.0" "2.0" "0.37")
      example_account example_instrument None 0 example_report_id = Raise e.
Proof. eexists. vm_compute. reflexivity. Qed.



End PolymarketProofs.

(* ===================================================================== *)
(** * Properties of the client factories                                  *)
(* ===================================================================== *)

Module FactoryProofs.
Import Py Binance BinanceExamples BinanceProofs BinanceFactory FactoryExamples.

Section Resolvers.
Context {X : Collaborators}.

(** X1: the HTTP resolver returns a URL for every configuration, and the
    WebSocket resolver returns one for every configuration except the
    coin-margined futures on the test network: the design-time error branch
    is never taken. *)
Theorem resolver_defined (config : BinanceClientConfig) :
  (exists url, _get_http_base_url config = Ok url)
  /\ ((exists url, _get_ws_base_url config = Ok url)
      <-> ~ (testnet config = true /\ account_type config = FUTURES_COIN)).
Proof.
  unfold _get_http_base_url, _get_ws_base_url.
  destruct (testnet config), (account_type config); cbn;
    (split; [eauto|]);
    (split; [intros [url E] [Ht Ha]; done
            |intros H; first [by eauto | by destruct H]]).
Qed.

(** X2: in live mode the HTTP base URL tells the account type and the
    region apart: two live configurations with the same HTTP URL have the
    same account type and the same regional flag. The WebSocket URL tells
    the region apart, and the account type up to spot and margin, which
    share their stream host. *)
Theorem live_urls_separate_markets (c1 c2 : BinanceClientConfig) :
  testnet c1 = false -> testnet c2 = false ->
  (_get_http_base_url c1 = _get_http_base_url c2 ->
   account_type c1 = account_type c2 /\ us c1 = us c2)
  /\ (_get_ws_base_url c1 = _get_ws_base_url c2 ->
      us c1 = us c2
      /\ (account_type c1 = account_type c2
          \/ (is_spot (account_type c1) || is_margin (account_type c1) = true
              /\ is_spot (account_type c2) || is_margin (account_type c2) = true))).
Proof.
  intros T1 T2.
  unfold _get_http_base_url, _get_ws_base_url, top_level_domain. rewrite T1, T2.
  destruct (account_type c1), (account_type c2), (us c1), (us c2); cbn;
    split; intros E; try discriminate E; auto.
Qed.

(** X3: every URL the resolvers return uses the encrypted scheme: HTTP
    URLs start with https:// and WebSocket URLs with wss://. *)
Theorem resolved_urls_are_encrypted (config : BinanceClientConfig) (url : string) :
  (_get_http_base_url config = Ok url -> String.prefix "https://" url = true)
  /\ (_get_ws_base_url config = Ok url -> String.prefix "wss://" url = true).
Proof.
  unfold _get_http_base_url, _get_ws_base_url, top_level_domain.
  destruct (testnet config), (account_type config), (us config); cbn;
    split; intros [= <-]; reflexivity.
Qed.

End Resolvers.

Section Registry.
Context {X : Collaborators}.

Lemma os_environ_Raise (name : string) (s : process) (e : exception) :
  os_environ name s = Raise e -> e = KeyError name /\ environ s !! name = None.
Proof.
  unfold os_environ. destruct (environ s !! name); [discriminate|].
  intros [= <-]. done.
Qed.

Lemma _get_api_key_Raise (a : BinanceAccountType) (t : bool) (s : process) (e : exception) :
  _get_api_key a t s = Raise e ->
  exists name, e = KeyError name /\ environ s !! name = None.
Proof.
  unfold _get_api_key. destruct t, (is_spot a || is_margin a);
    intros H; apply os_environ_Raise in H; eauto.
Qed.

Lemma _get_api_secret_Raise (a : BinanceAccountType) (t : bool) (s : process)
    (e : exception) :
  _get_api_secret a t s = Raise e ->
  exists name, e = KeyError name /\ environ s !! name = None.
Proof.
  unfold _get_api_secret. destruct t, (is_spot a || is_margin a);
    intros H; apply os_environ_Raise in H; eauto.
Qed.

Lemma or_else_Raise (x : option string) (d : result string) (e : exception) :
  or_else x d = Raise e -> d = Raise e.
Proof. destruct x as [v|]; cbn; [destruct (truthy v)|]; done. Qed.

Lemma registry_key_Raise (a : http_client_args) (s : process) (e : exception) :
  registry_key a s = Raise e ->
  exists name, e = KeyError name /\ environ s !! name = None.
Proof.
  unfold registry_key.
  destruct (or_else (key a) _) as [k|e1] eqn:E1; cbn.
  - destruct (or_else (secret a) _) as [sec|e2] eqn:E2; cbn; [discriminate|].
    intros [= <-]. apply or_else_Raise in E2. by apply _get_api_secret_Raise in E2.
  - intros [= <-]. apply or_else_Raise in E1. by apply _get_api_key_Raise in E1.
Qed.

(** The outcome of a call, by cases on the registry key and the registry. *)
Lemma http_client_outcome (a : http_client_args) (s : process) :
  match registry_key a s with
  | Raise e => get_cached_binance_http_client a s = (Raise e, s)
  | Ok ck =>
      match HTTP_CLIENTS s !! ck with
      | Some c => get_cached_binance_http_client a s = (Ok c, s)
      | None =>
          exists k sec,
            ck = join_credentials k sec
            /\ get_cached_binance_http_client a s
               = (Ok {| client_id := next_id s; client_loop := loop a;
                        client_clock := clock a; client_logger := logger a;
                        client_key := k; client_secret := sec;
                        client_base_url := base_url a |},
                  new_http_client a k sec ck s)
      end
  end.
Proof.
  destruct (registry_key a s) as [ck|e] eqn:Hk.
  - destruct (HTTP_CLIENTS s !! ck) as [c|] eqn:Hc.
    + by apply (http_client_hit a s ck c).
    + unfold registry_key, get_cached_binance_http_client in *.
      destruct (or_else (key a) _) as [k|e1]; [|done].
      destruct (or_else (secret a) _) as [sec|e2]; [|done].
      cbn in Hk. injection Hk as <-. exists k, sec. split; [done|].
      cbn. rewrite Hc. cbn. by rewrite lookup_insert_eq.
  - by apply http_client_failure.
Qed.

(** X4: a call that raises has found a credential variable missing from the
    environment: the exception is the [KeyError] of that variable, and the
    process state (registry, provider caches, allocator) is left as it
    was. *)
Theorem http_client_failure_is_clean
    (a : http_client_args) (s s' : process) (e : exception) :
  get_cached_binance_http_client a s = (Raise e, s') ->
  s' = s /\ exists name, e = KeyError name /\ environ s !! name = None.
Proof.
  intros H. pose proof (http_client_outcome a s) as O.
  destruct (registry_key a s) as [ck|e0] eqn:Hk.
  - destruct (HTTP_CLIENTS s !! ck) as [c|]; [congruence|].
    destruct O as (k & sec & _ & O). congruence.
  - rewrite O in H. injection H as <- <-. split; [done|].
    by apply (registry_key_Raise a s).
Qed.

Lemma join_credentials_shift (k x y : string) :
  join_credentials (k +:+ "|" +:+ x) y = join_credentials k (x +:+ "|" +:+ y).
Proof.
  unfold join_credentials.
  rewrite !NumericProofs.append_assoc. reflexivity.
Qed.

Lemma registry_key_explicit (a : http_client_args) (s : process) (k sec : string) :
  key a = Some k -> secret a = Some sec ->
  k <> EmptyString -> sec <> EmptyString ->
  registry_key a s = Ok (join_credentials k sec).
Proof.
  intros Ka Sa Hk Hs. unfold registry_key. rewrite Ka, Sa. cbn.
  destruct k; [done|]. destruct sec; [done|]. reflexivity.
Qed.

(** X5: the registry key is not injective in the credentials. A key
    [k|x] with secret [y] and a key [k] with secret [x|y] are joined to the
    same registry key, so once a client is cached for the first pair a call
    with the second pair is handed that client, built with other
    credentials, and constructs nothing. *)
Theorem credentials_with_separator_collide
    (a1 a2 : http_client_args) (k x y : string) (s s1 : process)
    (c : BinanceHttpClient) :
  key a1 = Some (k +:+ "|" +:+ x) -> secret a1 = Some y ->
  key a2 = Some k -> secret a2 = Some (x +:+ "|" +:+ y) ->
  k <> EmptyString -> y <> EmptyString ->
  get_cached_binance_http_client a1 s = (Ok c, s1) ->
  get_cached_binance_http_client a2 s1 = (Ok c, s1).
Proof.
  intros K1 S1 K2 S2 Hk Hy H.
  assert (forall s0, registry_key a1 s0 = Ok (join_credentials (k +:+ "|" +:+ x) y)) as R1.
  { intros s0. apply registry_key_explicit; try done.
    destruct k; [done|discriminate]. }
  assert (registry_key a2 s1 = Ok (join_credentials (k +:+ "|" +:+ x) y)) as R2.
  { rewrite join_credentials_shift. apply registry_key_explicit; try done.
    destruct x; discriminate. }
  assert (HTTP_CLIENTS s1 !! join_credentials (k +:+ "|" +:+ x) y = Some c) as Hc.
  { pose proof (http_client_outcome a1 s) as O. rewrite R1 in O.
    destruct (HTTP_CLIENTS s !! _) as [c0|] eqn:E.
    - rewrite O in H. by injection H as <- <-.
    - destruct O as (k' & sec' & _ & O). rewrite O in H. injection H as <- <-.
      cbn. apply lookup_insert_eq. }
  exact (http_client_hit a2 s1 _ c R2 Hc).
Qed.

(** *** Well-formed registry *)

Lemma initial_registry_wf (env : gmap string string) : registry_wf (initial_process env).
Proof. split; cbn; intros *; rewrite ?lookup_empty; done. Qed.

Lemma provider_step_fields (r : request) (s : process) :
  (forall a, r <> HttpClientRequest a) ->
  HTTP_CLIENTS (step r s) = HTTP_CLIENTS s
  /\ environ (step r s) = environ s
  /\ (next_id s <= next_id (step r s))%nat.
Proof.
  intros Hr. destruct r as [a|a|a]; [by destruct (Hr a)| |]; cbn.
  - destruct (cache_hit (spot_provider_cache s) a) as [p|] eqn:E.
    + by rewrite (spot_provider_hit a s p E).
    + rewrite (spot_provider_miss a s E). cbn. repeat split; lia.
  - destruct (cache_hit (futures_provider_cache s) a) as [p|] eqn:E.
    + by rewrite (futures_provider_hit a s p E).
    + rewrite (futures_provider_miss a s E). cbn. repeat split; lia.
Qed.

Lemma step_registry_wf (r : request) (s : process) :
  registry_wf s -> registry_wf (step r s).
Proof.
  intros [Hk Ha Hd]. destruct r as [a|a|a].
  - cbn. pose proof (http_client_outcome a s) as O.
    destruct (registry_key a s) as [ck|e]; [|by rewrite O].
    destruct (HTTP_CLIENTS s !! ck) as [c|] eqn:E; [by rewrite O|].
    destruct O as (k & sec & -> & ->). cbn. split; cbn.
    + intros ck' c'. rewrite lookup_insert. case_decide as D.
      * intros [= <-]. by subst.
      * apply Hk.
    + intros ck' c'. rewrite lookup_insert. case_decide as D.
      * intros [= <-]. cbn. lia.
      * intros H. specialize (Ha _ _ H). lia.
    + intros ck1 ck2 c1 c2. rewrite !lookup_insert.
      repeat case_decide; subst.
      * done.
      * intros [= <-] H2 Hid. specialize (Ha _ _ H2). cbn in Hid. lia.
      * intros H1 [= <-] Hid. specialize (Ha _ _ H1). cbn in Hid. lia.
      * apply Hd.
  - destruct (provider_step_fields (SpotProviderRequest a) s) as (E1 & _ & E3); [done|].
    split; rewrite E1.
    + apply Hk.
    + intros ck c H. specialize (Ha _ _ H). lia.
    + apply Hd.
  - destruct (provider_step_fields (FuturesProviderRequest a) s) as (E1 & _ & E3); [done|].
    split; rewrite E1.
    + apply Hk.
    + intros ck c H. specialize (Ha _ _ H). lia.
    + apply Hd.
Qed.

(** X6: in every state the process reaches, each registry entry is stored
    under the key joined from the key and secret its client was constructed
    with, and two different registry keys never hold the same client
    instance. *)
Theorem registry_entries_match_their_key
    (env : gmap string string) (rs : list request) :
  registry_wf (run rs (initial_process env)).
Proof.
  assert (forall s, registry_wf s -> registry_wf (run rs s)) as H.
  { induction rs as [|r rs IH]; intros s Hs; [done|].
    cbn. apply IH, step_registry_wf, Hs. }
  apply H, initial_registry_wf.
Qed.

(** X7: a call whose registry key is new builds the client from its own
    arguments: its loop, clock, logger and base URL, and as key and secret
    the resolved credentials themselves (the explicit ones when non-empty,
    those of the environment otherwise). The client is stored under the key
    joined from them, every other entry is left alone, and the registry
    grows by exactly one entry. *)
Theorem http_client_miss_stores_new_client
    (a : http_client_args) (s : process) (k sec : string) :
  or_else (key a) (_get_api_key (http_account_type a) (is_testnet a) s) = Ok k ->
  or_else (secret a) (_get_api_secret (http_account_type a) (is_testnet a) s) = Ok sec ->
  HTTP_CLIENTS s !! join_credentials k sec = None ->
  exists (c : BinanceHttpClient) (s' : process),
    get_cached_binance_http_client a s = (Ok c, s')
    /\ client_loop c = loop a /\ client_clock c = clock a
    /\ client_logger c = logger a /\ client_base_url c = base_url a
    /\ client_key c = k /\ client_secret c = sec
    /\ HTTP_CLIENTS s' !! join_credentials k sec = Some c
    /\ (forall ck, ck <> join_credentials k sec ->
          HTTP_CLIENTS s' !! ck = HTTP_CLIENTS s !! ck)
    /\ size (HTTP_CLIENTS s') = S (size (HTTP_CLIENTS s)).
Proof.
  intros Hk Hsec Hc. unfold get_cached_binance_http_client.
  rewrite Hk, Hsec. cbv zeta. rewrite Hc. cbn. rewrite lookup_insert_eq.
  eexists _, _. split; [reflexivity|]. cbn. repeat split.
  - apply lookup_insert_eq.
  - intros ck Hne. by apply lookup_insert_ne.
  - by apply map_size_insert_None.
Qed.

End Registry.

Section Providers.
Context {X : Collaborators}.

Lemma spot_provider_leaves_hit (a : provider_args) (s : process) :
  cache_hit (spot_provider_cache (snd (get_cached_binance_spot_instrument_provider a s))) a
  = Some (fst (get_cached_binance_spot_instrument_provider a s)).
Proof.
  destruct (cache_hit (spot_provider_cache s) a) as [p|] eqn:E.
  - by rewrite (spot_provider_hit a s p E).
  - rewrite (spot_provider_miss a s E). cbn. by rewrite same_provider_args_refl.
Qed.

Lemma futures_provider_leaves_hit (a : provider_args) (s : process) :
  cache_hit (futures_provider_cache (snd (get_cached_binance_futures_instrument_provider a s))) a
  = Some (fst (get_cached_binance_futures_instrument_provider a s)).
Proof.
  destruct (cache_hit (futures_provider_cache s) a) as [p|] eqn:E.
  - by rewrite (futures_provider_hit a s p E).
  - rewrite (futures_provider_miss a s E). cbn. by rewrite same_provider_args_refl.
Qed.

Lemma step_keeps_spot_slot (r : request) (s : process) :
  is_spot_provider_request r = false ->
  spot_provider_cache (step r s) = spot_provider_cache s.
Proof.
  destruct r as [a|a|a]; [|discriminate|]; intros _; cbn.
  - destruct (http_client_step a s) as [->|(ck & c & H)]; [done|]. cbn in H. tauto.
  - destruct (cache_hit (futures_provider_cache s) a) as [p|] eqn:E.
    + by rewrite (futures_provider_hit a s p E).
    + by rewrite (futures_provider_miss a s E).
Qed.

Lemma step_keeps_futures_slot (r : request) (s : process) :
  is_futures_provider_request r = false ->
  futures_provider_cache (step r s) = futures_provider_cache s.
Proof.
  destruct r as [a|a|a]; [| |discriminate]; intros _; cbn.
  - destruct (http_client_step a s) as [->|(ck & c & H)]; [done|]. cbn in H. tauto.
  - destruct (cache_hit (spot_provider_cache s) a) as [p|] eqn:E.
    + by rewrite (spot_provider_hit a s p E).
    + by rewrite (spot_provider_miss a s E).
Qed.

Lemma run_keeps_spot_slot (rs : list request) (s : process) :
  Forall (fun r => is_spot_provider_request r = false) rs ->
  spot_provider_cache (run rs s) = spot_provider_cache s.
Proof.
  intros H. revert s. induction H as [|r rs Hr _ IH]; intros s; [done|].
  change (run (r :: rs) s) with (run rs (step r s)).
  rewrite IH. by apply step_keeps_spot_slot.
Qed.

Lemma run_keeps_futures_slot (rs : list request) (s : process) :
  Forall (fun r => is_futures_provider_request r = false) rs ->
  futures_provider_cache (run rs s) = futures_provider_cache s.
Proof.
  intros H. revert s. induction H as [|r rs Hr _ IH]; intros s; [done|].
  change (run (r :: rs) s) with (run rs (step r s)).
  rewrite IH. by apply step_keeps_futures_slot.
Qed.

(** X8: the two provider caches and the client registry do not disturb
    one another. After a call of the spot getter, any requests other than
    spot-getter calls (client lookups, futures-getter calls) leave its slot
    alone: the same call then returns the same provider and changes
    nothing. The same holds for the futures getter. *)
Theorem provider_survives_other_requests
    (a : provider_args) (s : process) (rs : list request) :
  (Forall (fun r => is_spot_provider_request r = false) rs ->
   get_cached_binance_spot_instrument_provider a
     (run rs (snd (get_cached_binance_spot_instrument_provider a s)))
   = (fst (get_cached_binance_spot_instrument_provider a s),
      run rs (snd (get_cached_binance_spot_instrument_provider a s))))
  /\ (Forall (fun r => is_futures_provider_request r = false) rs ->
      get_cached_binance_futures_instrument_provider a
        (run rs (snd (get_cached_binance_futures_instrument_provider a s)))
      = (fst (get_cached_binance_futures_instrument_provider a s),
         run rs (snd (get_cached_binance_futures_instrument_provider a s)))).
Proof.
  split; intros H.
  - apply spot_provider_hit. rewrite (run_keeps_spot_slot rs _ H).
    apply spot_provider_leaves_hit.
  - apply futures_provider_hit. rewrite (run_keeps_futures_slot rs _ H).
    apply futures_provider_leaves_hit.
Qed.

(** *** Cached providers were built from their key *)

Lemma same_provider_args_fields (k a : provider_args) :
  same_provider_args k a = true ->
  client_id (arg_client k) = client_id (arg_client a)
  /\ arg_logger k = arg_logger a
  /\ arg_account_type k = arg_account_type a
  /\ arg_config k = arg_config a.
Proof.
  unfold same_provider_args. intros H.
  repeat (apply andb_prop in H as [H ?]).
  repeat match goal with
         | E : bool_decide _ = true |- _ => apply bool_decide_eq_true in E
         end.
  done.
Qed.

Lemma step_slots_built_from_key (r : request) (s : process) :
  slot_built_from_key BinanceSpotInstrumentProvider (spot_provider_cache s) ->
  slot_built_from_key BinanceFuturesInstrumentProvider (futures_provider_cache s) ->
  slot_built_from_key BinanceSpotInstrumentProvider (spot_provider_cache (step r s))
  /\ slot_built_from_key BinanceFuturesInstrumentProvider
       (futures_provider_cache (step r s)).
Proof.
  intros Hs Hf. destruct r as [a|a|a].
  - rewrite step_keeps_spot_slot, step_keeps_futures_slot by done. done.
  - rewrite step_keeps_futures_slot by done. split; [|done]. cbn.
    destruct (cache_hit (spot_provider_cache s) a) as [p|] eqn:E.
    + by rewrite (spot_provider_hit a s p E).
    + rewrite (spot_provider_miss a s E). cbn. intros k p [= <- <-]. done.
  - rewrite step_keeps_spot_slot by done. split; [done|]. cbn.
    destruct (cache_hit (futures_provider_cache s) a) as [p|] eqn:E.
    + by rewrite (futures_provider_hit a s p E).
    + rewrite (futures_provider_miss a s E). cbn. intros k p [= <- <-]. done.
Qed.

Lemma run_slots_built_from_key (env : gmap string string) (rs : list request) :
  slot_built_from_key BinanceSpotInstrumentProvider
    (spot_provider_cache (run rs (initial_process env)))
  /\ slot_built_from_key BinanceFuturesInstrumentProvider
       (futures_provider_cache (run rs (initial_process env))).
Proof.
  assert (forall s,
            slot_built_from_key BinanceSpotInstrumentProvider (spot_provider_cache s)
            /\ slot_built_from_key BinanceFuturesInstrumentProvider (futures_provider_cache s) ->
            slot_built_from_key BinanceSpotInstrumentProvider (spot_provider_cache (run rs s))
            /\ slot_built_from_key BinanceFuturesInstrumentProvider
                 (futures_provider_cache (run rs s))) as H.
  { induction rs as [|r rs IH]; intros s Hs; [done|].
    change (run (r :: rs) s) with (run rs (step r s)).
    apply IH. destruct Hs. by apply step_slots_built_from_key. }
  apply H. split; intros k p; cbn; discriminate.
Qed.

Lemma getter_result_built_from_key
    (cls : ProviderClass) (slot : option (provider_args * InstrumentProvider))
    (a : provider_args) (p : InstrumentProvider) :
  slot_built_from_key cls slot ->
  cache_hit slot a = Some p ->
  provider_class p = cls
  /\ client_id (provider_client p) = client_id (arg_client a)
  /\ provider_logger p = arg_logger a
  /\ provider_account_type p = arg_account_type a
  /\ provider_config p = arg_config a.
Proof.
  intros Hb. unfold cache_hit. destruct slot as [[k v]|]; [|discriminate].
  destruct (same_provider_args k a) eqn:E; [|discriminate]. intros [= <-].
  destruct (Hb k v eq_refl) as (C & P1 & P2 & P3 & P4).
  apply same_provider_args_fields in E as (E1 & E2 & E3 & E4).
  rewrite P1, P2, P3, P4. done.
Qed.

(** X9: in every state the process reaches, the provider a getter returns
    was built for the request: it is of the getter's class (spot or
    futures), and its logger, account type and configuration are the
    requested ones and its client is the requested client instance, whether
    it was cached or newly built. *)
Theorem provider_matches_request
    (env : gmap string string) (rs : list request) (a : provider_args) :
  let s := run rs (initial_process env) in
  let p := fst (get_cached_binance_spot_instrument_provider a s) in
  let q := fst (get_cached_binance_futures_instrument_provider a s) in
  (provider_class p = BinanceSpotInstrumentProvider
   /\ client_id (provider_client p) = client_id (arg_client a)
   /\ provider_logger p = arg_logger a
   /\ provider_account_type p = arg_account_type a
   /\ provider_config p = arg_config a)
  /\ (provider_class q = BinanceFuturesInstrumentProvider
      /\ client_id (provider_client q) = client_id (arg_client a)
      /\ provider_logger q = arg_logger a
      /\ provider_account_type q = arg_account_type a
      /\ provider_config q = arg_config a).
Proof.
  intros s p q.
  destruct (step_slots_built_from_key (SpotProviderRequest a) s) as [Hs _];
    [apply run_slots_built_from_key..|].
  destruct (step_slots_built_from_key (FuturesProviderRequest a) s) as [_ Hf];
    [apply run_slots_built_from_key..|].
  split.
  - eapply getter_result_built_from_key; [exact Hs|]. apply spot_provider_leaves_hit.
  - eapply getter_result_built_from_key; [exact Hf|]. apply futures_provider_leaves_hit.
Qed.

End Providers.

Section Creation.
Context {X : Collaborators} {MessageBus Cache : Type}.
Implicit Types a : @create_args X MessageBus Cache.

(** A successful [create], step by step. *)
Lemma data_create_Ok a (s s' : process) (cl : LiveClient) :
  BinanceLiveDataClientFactory_create a s = (Ok cl, s') ->
  exists dh dw c s1 p,
    _get_http_base_url (create_config a) = Ok dh
    /\ _get_ws_base_url (create_config a) = Ok dw
    /\ get_cached_binance_http_client (http_client_call a dh) s = (Ok c, s1)
    /\ (if is_spot (account_type (create_config a))
           || is_margin (account_type (create_config a))
        then get_cached_binance_spot_instrument_provider (provider_call a c) s1 = (p, s')
             /\ cl = new_live_client BinanceSpotDataClient a c p dw
        else get_cached_binance_futures_instrument_provider (provider_call a c) s1 = (p, s')
             /\ cl = new_live_client BinanceFuturesDataClient a c p dw).
Proof.
  unfold BinanceLiveDataClientFactory_create. cbv zeta.
  destruct (_get_http_base_url (create_config a)) as [dh|]; [|discriminate].
  destruct (_get_ws_base_url (create_config a)) as [dw|]; [|discriminate].
  destruct (get_cached_binance_http_client _ s) as [[c|] s1] eqn:Eh; [|discriminate].
  destruct (is_spot _ || is_margin _) eqn:Ef.
  - destruct (get_cached_binance_spot_instrument_provider _ s1) as [p s2] eqn:Ep.
    intros [= <- <-]. by exists dh, dw, c, s1, p.
  - destruct (get_cached_binance_futures_instrument_provider _ s1) as [p s2] eqn:Ep.
    intros [= <- <-]. by exists dh, dw, c, s1, p.
Qed.

(** X10: the two factories run the same steps and differ only in the class
    of the client they build: the execution factory's outcome is the data
    factory's with the class replaced by the execution class of the same
    family, on every input and state, failures included. *)
Theorem exec_factory_mirrors_data_factory a (s : process) :
  BinanceLiveExecClientFactory_create a s
  = (match fst (BinanceLiveDataClientFactory_create a s) with
     | Ok cl => Ok (as_execution_client cl)
     | Raise e => Raise e
     end,
     snd (BinanceLiveDataClientFactory_create a s)).
Proof.
  unfold BinanceLiveExecClientFactory_create, BinanceLiveDataClientFactory_create.
  cbv zeta.
  destruct (_get_http_base_url (create_config a)) as [dh|]; [|done].
  destruct (_get_ws_base_url (create_config a)) as [dw|]; [|done].
  destruct (get_cached_binance_http_client _ s) as [[c|] s1]; [|done].
  destruct (is_spot _ || is_margin _).
  - by destruct (get_cached_binance_spot_instrument_provider _ s1).
  - by destruct (get_cached_binance_futures_instrument_provider _ s1).
Qed.

(** X11: a factory call that raises has changed nothing: every failure
    (an unsupported network combination, a missing credential) happens
    before a client or a provider is constructed or cached. *)
Theorem create_failure_is_clean a (s s' : process) (e : exception) :
  (BinanceLiveDataClientFactory_create a s = (Raise e, s') -> s' = s)
  /\ (BinanceLiveExecClientFactory_create a s = (Raise e, s') -> s' = s).
Proof.
  assert (BinanceLiveDataClientFactory_create a s = (Raise e, s') -> s' = s) as D.
  { unfold BinanceLiveDataClientFactory_create. cbv zeta.
    destruct (_get_http_base_url (create_config a)) as [dh|]; [|by intros [= _ <-]].
    destruct (_get_ws_base_url (create_config a)) as [dw|]; [|by intros [= _ <-]].
    pose proof (http_client_outcome (http_client_call a dh) s) as O.
    destruct (get_cached_binance_http_client _ s) as [[c|e0] s1] eqn:Eh.
    - destruct (is_spot _ || is_margin _).
      + by destruct (get_cached_binance_spot_instrument_provider _ s1).
      + by destruct (get_cached_binance_futures_instrument_provider _ s1).
    - intros [= _ <-].
      destruct (registry_key _ s) as [ck|e1]; [|congruence].
      destruct (HTTP_CLIENTS s !! ck); [congruence|].
      destruct O as (k & sec & _ & O). congruence. }
  split; [exact D|].
  rewrite (surjective_pairing (BinanceLiveExecClientFactory_create a s)).
  unfold BinanceLiveExecClientFactory_create, BinanceLiveDataClientFactory_create in *.
  cbv zeta in *.
  destruct (_get_http_base_url (create_config a)) as [dh|]; [|by intros [= _ <-]].
  destruct (_get_ws_base_url (create_config a)) as [dw|]; [|by intros [= _ <-]].
  destruct (get_cached_binance_http_client _ s) as [[c|e0] s1] eqn:Eh.
  - destruct (is_spot _ || is_margin _).
    + by destruct (get_cached_binance_spot_instrument_provider _ s1).
    + by destruct (get_cached_binance_futures_instrument_provider _ s1).
  - cbn. intros [= -> <-]. by apply D.
Qed.

(** X12: for coin-margined futures on the test network both factories
    raise the resolver's [ValueError] and change nothing, whatever the rest
    of the configuration is: an explicit WebSocket URL override does not
    help, because the default URLs are resolved first. *)
Theorem create_fails_for_coin_testnet a (s : process) :
  testnet (create_config a) = true ->
  account_type (create_config a) = FUTURES_COIN ->
  BinanceLiveDataClientFactory_create a s
  = (Raise (ValueError "no testnet for COIN-M futures"), s)
  /\ BinanceLiveExecClientFactory_create a s
     = (Raise (ValueError "no testnet for COIN-M futures"), s).
Proof.
  intros Ht Ha.
  unfold BinanceLiveDataClientFactory_create, BinanceLiveExecClientFactory_create,
    _get_http_base_url, _get_ws_base_url.
  cbv zeta. rewrite Ht, Ha. split; reflexivity.
Qed.

(** X13: a created client belongs to the market family of its account
    type: spot and margin configurations get the spot client class,
    futures (USDT- and coin-margined) the futures class. The client carries
    the configured account type, and its WebSocket URL is the configured
    override when that is a non-empty string and the resolved default
    otherwise. *)
Theorem create_dispatches_on_family a (s s' : process) (cl : LiveClient) :
  BinanceLiveDataClientFactory_create a s = (Ok cl, s') ->
  live_account_type cl = account_type (create_config a)
  /\ live_class cl
     = match account_type (create_config a) with
       | SPOT | MARGIN => BinanceSpotDataClient
       | FUTURES_USDT | FUTURES_COIN => BinanceFuturesDataClient
       end
  /\ (exists dw, _get_ws_base_url (create_config a) = Ok dw
       /\ live_base_url_ws cl
          = match base_url_ws (create_config a) with
            | Some (String c w) => String c w
            | _ => dw
            end).
Proof.
  intros H. apply data_create_Ok in H as (dh & dw & c & s1 & p & _ & Hw & _ & H).
  assert (live_account_type cl = account_type (create_config a)
          /\ live_class cl
             = (if is_spot (account_type (create_config a))
                   || is_margin (account_type (create_config a))
                then BinanceSpotDataClient else BinanceFuturesDataClient)
          /\ live_base_url_ws cl = or_default (base_url_ws (create_config a)) dw)
    as (E1 & E2 & E3).
  { destruct (is_spot _ || is_margin _); destruct H as [_ ->]; done. }
  split; [done|]. split.
  - rewrite E2. by destruct (account_type (create_config a)).
  - exists dw. split; [done|]. rewrite E3. unfold or_default.
    by destruct (base_url_ws (create_config a)) as [[|]|].
Qed.

Lemma registry_key_environ (h1 h2 : http_client_args) (s1 s2 : process) :
  environ s1 = environ s2 ->
  key h1 = key h2 -> secret h1 = secret h2 ->
  http_account_type h1 = http_account_type h2 -> is_testnet h1 = is_testnet h2 ->
  registry_key h1 s1 = registry_key h2 s2.
Proof.
  intros E K S A T.
  unfold registry_key, _get_api_key, _get_api_secret, os_environ.
  by rewrite E, K, S, A, T.
Qed.

Lemma http_client_keeps_environ (h : http_client_args) (s : process) :
  environ (snd (get_cached_binance_http_client h s)) = environ s.
Proof.
  destruct (http_client_step h s) as [->|(ck & c & H)]; [done|]. cbn in H. tauto.
Qed.

Lemma http_client_Ok_stored (h : http_client_args) (s s1 : process) (c : BinanceHttpClient) :
  get_cached_binance_http_client h s = (Ok c, s1) ->
  exists ck, registry_key h s = Ok ck /\ HTTP_CLIENTS s1 !! ck = Some c.
Proof.
  intros H. pose proof (http_client_outcome h s) as O.
  destruct (registry_key h s) as [ck|e]; [|congruence].
  exists ck. split; [done|].
  destruct (HTTP_CLIENTS s !! ck) as [c0|] eqn:E.
  - rewrite O in H. by injection H as <- <-.
  - destruct O as (k & sec & _ & O). rewrite O in H. injection H as <- <-.
    cbn. apply lookup_insert_eq.
Qed.

(** X14: clients created from the same configuration and logger share
    their resources. After a data client was created, creating an execution
    client (or another data client) with the same configuration and logger,
    whatever its loop, clock, message bus and cache, succeeds, constructs
    nothing, and gets the same HTTP client instance and the same instrument
    provider instance. *)
Theorem factories_share_client_and_provider a a' (s s1 : process) (cl : LiveClient) :
  create_config a' = create_config a ->
  create_logger a' = create_logger a ->
  BinanceLiveDataClientFactory_create a s = (Ok cl, s1) ->
  exists cl_exec cl_data,
    BinanceLiveExecClientFactory_create a' s1 = (Ok cl_exec, s1)
    /\ BinanceLiveDataClientFactory_create a' s1 = (Ok cl_data, s1)
    /\ live_client cl_exec = live_client cl
    /\ live_instrument_provider cl_exec = live_instrument_provider cl
    /\ live_client cl_data = live_client cl
    /\ live_instrument_provider cl_data = live_instrument_provider cl.
Proof.
  intros Ec El H.
  apply data_create_Ok in H as (dh & dw & c & s0 & p & Hh & Hw & Hc & H).
  apply http_client_Ok_stored in Hc as Hst. destruct Hst as (ck & Hk & Hs0).
  assert (environ s0 = environ s) as Env0.
  { pose proof (http_client_keeps_environ (http_client_call a dh) s) as E.
    by rewrite Hc in E. }
  assert (provider_call a' c = provider_call a c) as Ep.
  { unfold provider_call. by rewrite Ec, El. }
  assert (HTTP_CLIENTS s1 = HTTP_CLIENTS s0 /\ environ s1 = environ s0
          /\ (if is_spot (account_type (create_config a))
                 || is_margin (account_type (create_config a))
              then get_cached_binance_spot_instrument_provider (provider_call a c) s1
                   = (p, s1)
              else get_cached_binance_futures_instrument_provider (provider_call a c) s1
                   = (p, s1))
          /\ live_client cl = c /\ live_instrument_provider cl = p)
    as (Hreg & Henv & Hp & Lc & Lp).
  { destruct (is_spot _ || is_margin _); destruct H as [Hg ->].
    - destruct (provider_step_fields (SpotProviderRequest (provider_call a c)) s0)
        as (F1 & F2 & _); [done|].
      cbn in F1, F2. rewrite Hg in F1, F2. cbn in F1, F2. repeat split; try done.
      pose proof (spot_provider_leaves_hit (provider_call a c) s0) as L.
      rewrite Hg in L. by apply spot_provider_hit.
    - destruct (provider_step_fields (FuturesProviderRequest (provider_call a c)) s0)
        as (F1 & F2 & _); [done|].
      cbn in F1, F2. rewrite Hg in F1, F2. cbn in F1, F2. repeat split; try done.
      pose proof (futures_provider_leaves_hit (provider_call a c) s0) as L.
      rewrite Hg in L. by apply futures_provider_hit. }
  assert (get_cached_binance_http_client (http_client_call a' dh) s1 = (Ok c, s1)) as Hit.
  { apply (http_client_hit _ s1 ck c); [|by rewrite Hreg].
    rewrite <- Hk. apply registry_key_environ; cbn; rewrite ?Ec; try done.
    by rewrite Henv. }
  assert (BinanceLiveDataClientFactory_create a' s1
          = (Ok (new_live_client
                   (if is_spot (account_type (create_config a))
                       || is_margin (account_type (create_config a))
                    then BinanceSpotDataClient else BinanceFuturesDataClient)
                   a' c p dw), s1)) as Hd.
  { unfold BinanceLiveDataClientFactory_create. cbv zeta.
    rewrite Ec, Hh, Hw, Hit, Ep.
    destruct (is_spot _ || is_margin _); by rewrite Hp. }
  assert (BinanceLiveExecClientFactory_create a' s1
          = (Ok (new_live_client
                   (if is_spot (account_type (create_config a))
                       || is_margin (account_type (create_config a))
                    then BinanceSpotExecutionClient else BinanceFuturesExecutionClient)
                   a' c p dw), s1)) as He.
  { unfold BinanceLiveExecClientFactory_create. cbv zeta.
    rewrite Ec, Hh, Hw, Hit, Ep.
    destruct (is_spot _ || is_margin _); by rewrite Hp. }
  eexists _, _. split; [exact He|]. split; [exact Hd|].
  rewrite Lc, Lp. done.
Qed.

(** X15: the HTTP client is chosen by the credentials alone. Of two
    clients created with the same explicit key and secret, the second gets
    the HTTP client instance of the first, and with it the first one's base
    URL, whatever its own account type, network flags and URL override
    are. *)
Theorem same_credentials_share_http_client a1 a2 (s s1 s2 : process)
    (cl1 cl2 : LiveClient) (k sec : string) :
  api_key (create_config a1) = Some k -> api_secret (create_config a1) = Some sec ->
  api_key (create_config a2) = Some k -> api_secret (create_config a2) = Some sec ->
  k <> EmptyString -> sec <> EmptyString ->
  BinanceLiveDataClientFactory_create a1 s = (Ok cl1, s1) ->
  BinanceLiveDataClientFactory_create a2 s1 = (Ok cl2, s2) ->
  live_client cl2 = live_client cl1.
Proof.
  intros K1 S1 K2 S2 Hk Hsec H1 H2.
  apply data_create_Ok in H1 as (dh1 & dw1 & c1 & s0 & p1 & _ & _ & Hc1 & H1).
  apply data_create_Ok in H2 as (dh2 & dw2 & c2 & s0' & p2 & _ & _ & Hc2 & H2).
  assert (forall a dh st, api_key (create_config a) = Some k ->
            api_secret (create_config a) = Some sec ->
            registry_key (http_client_call a dh) st = Ok (join_credentials k sec)) as R.
  { intros a dh st Ka Sa. by apply registry_key_explicit. }
  apply http_client_Ok_stored in Hc1 as (ck & Hck & Hst).
  rewrite (R a1 dh1 s K1 S1) in Hck. injection Hck as <-.
  assert (HTTP_CLIENTS s1 = HTTP_CLIENTS s0 /\ live_client cl1 = c1) as (Hreg & L1).
  { destruct (is_spot (account_type (create_config a1)) || _); destruct H1 as [Hg ->].
    - destruct (provider_step_fields (SpotProviderRequest (provider_call a1 c1)) s0)
        as (F1 & _); [done|]. cbn in F1. rewrite Hg in F1. done.
    - destruct (provider_step_fields (FuturesProviderRequest (provider_call a1 c1)) s0)
        as (F1 & _); [done|]. cbn in F1. rewrite Hg in F1. done. }
  assert (live_client cl2 = c2) as L2.
  { destruct (is_spot (account_type (create_config a2)) || _); destruct H2 as [_ ->];
      done. }
  rewrite (http_client_hit (http_client_call a2 dh2) s1 _ c1 (R a2 dh2 s1 K2 S2)) in Hc2
    by (by rewrite Hreg).
  injection Hc2 as <- _. by rewrite L1, L2.
Qed.

End Creation.

Lemma live_urls_separate_markets_witness :
  account_type (example_config SPOT false false)
  = account_type (example_credentialed_config SPOT false (Some "wss://own"))
  /\ us (example_config SPOT false false)
     = us (example_credentialed_config SPOT false (Some "wss://own")).
Proof.
  destruct (live_urls_separate_markets (example_config SPOT false false)
              (example_credentialed_config SPOT false (Some "wss://own"))
              eq_refl eq_refl) as [H _].
  apply H. reflexivity.
Defined.

Lemma resolved_urls_are_encrypted_witness :
  String.prefix "https://" "https://fapi.binance.us" = true.
Proof.
  destruct (resolved_urls_are_encrypted (example_config FUTURES_USDT false true)
              "https://fapi.binance.us") as [H _].
  apply H. reflexivity.
Defined.

Lemma http_client_failure_is_clean_witness :
  snd (get_cached_binance_http_client (example_env_http_args SPOT false)
         (@initial_process example_collaborators ∅))
  = @initial_process example_collaborators ∅
  /\ exists name, KeyError "BINANCE_API_KEY" = KeyError name
                  /\ environ (@initial_process example_collaborators ∅) !! name = None.
Proof.
  assert (E : get_cached_binance_http_client (example_env_http_args SPOT false)
                (@initial_process example_collaborators ∅)
              = (Raise (KeyError "BINANCE_API_KEY"),
                 @initial_process example_collaborators ∅))
    by (vm_compute; reflexivity).
  destruct (http_client_failure_is_clean _ _ _ _ E) as [H1 H2].
  split; [rewrite E; reflexivity|exact H2].
Defined.

Lemma credentials_with_separator_collide_witness :
  let s1 := snd (get_cached_binance_http_client
                   (example_http_args 0 "a|b" "c" SPOT None false) (@initial_process example_collaborators ∅)) in
  get_cached_binance_http_client (example_http_args 0 "a" "b|c" SPOT None false) s1
  = (Ok example_collision_client, s1).
Proof.
  intros s1.
  apply (credentials_with_separator_collide
           (example_http_args 0 "a|b" "c" SPOT None false)
           (example_http_args 0 "a" "b|c" SPOT None false)
           "a" "b" "c" (@initial_process example_collaborators ∅) s1 example_collision_client);
    (reflexivity || discriminate).
Defined.

Lemma http_client_miss_stores_new_client_witness :
  exists c s',
    get_cached_binance_http_client (example_http_args 0 "a|b" "c" SPOT None false)
      (@initial_process example_collaborators ∅) = (Ok c, s')
    /\ client_key c = "a|b" /\ client_secret c = "c"
    /\ size (HTTP_CLIENTS s') = 1%nat.
Proof.
  destruct (http_client_miss_stores_new_client
              (example_http_args 0 "a|b" "c" SPOT None false)
              (@initial_process example_collaborators ∅) "a|b" "c"
              eq_refl eq_refl eq_refl)
    as (c & s' & H & _ & _ & _ & _ & Hkey & Hsec & _ & _ & Hsize).
  exists c, s'. split; [exact H|]. split; [exact Hkey|]. split; [exact Hsec|].
  rewrite Hsize. reflexivity.
Defined.

Lemma provider_survives_other_requests_witness :
  let a := example_provider_args 0 SPOT 0 in
  let rs := [FuturesProviderRequest (example_provider_args 0 FUTURES_USDT 0);
             HttpClientRequest (example_http_args 0 "k" "s" SPOT None false)] in
  get_cached_binance_spot_instrument_provider a
    (run rs (snd (get_cached_binance_spot_instrument_provider a (@initial_process example_collaborators ∅))))
  = (fst (get_cached_binance_spot_instrument_provider a (@initial_process example_collaborators ∅)),
     run rs (snd (get_cached_binance_spot_instrument_provider a (@initial_process example_collaborators ∅)))).
Proof.
  intros a rs.
  destruct (provider_survives_other_requests a (@initial_process example_collaborators ∅) rs) as [H _].
  apply H. repeat constructor.
Defined.

Lemma create_failure_is_clean_witness :
  snd (BinanceLiveDataClientFactory_create
         (example_create_args (example_config SPOT false false)) (@initial_process example_collaborators ∅))
  = initial_process ∅.
Proof.
  destruct (create_failure_is_clean
              (example_create_args (example_config SPOT false false)) (@initial_process example_collaborators ∅)
              (snd (BinanceLiveDataClientFactory_create
                      (example_create_args (example_config SPOT false false))
                      (@initial_process example_collaborators ∅)))
              (KeyError "BINANCE_API_KEY")) as [H _].
  apply H. reflexivity.
Defined.

Lemma create_fails_for_coin_testnet_witness :
  BinanceLiveDataClientFactory_create
    (example_create_args
       (example_credentialed_config FUTURES_COIN true (Some "wss://dstream.example")))
    (@initial_process example_collaborators ∅)
  = (Raise (ValueError "no testnet for COIN-M futures"), initial_process ∅).
Proof.
  destruct (create_fails_for_coin_testnet
              (example_create_args
                 (example_credentialed_config FUTURES_COIN true
                    (Some "wss://dstream.example")))
              (@initial_process example_collaborators ∅) eq_refl eq_refl) as [H _].
  exact H.
Defined.

Lemma create_dispatches_on_family_witness :
  exists cl s',
    BinanceLiveDataClientFactory_create
      (example_create_args (example_credentialed_config MARGIN false (Some "wss://own")))
      (@initial_process example_collaborators ∅) = (Ok cl, s')
    /\ live_class cl = BinanceSpotDataClient
    /\ live_account_type cl = MARGIN.
Proof.
  assert (exists cl s',
            BinanceLiveDataClientFactory_create
              (example_create_args
                 (example_credentialed_config MARGIN false (Some "wss://own")))
              (@initial_process example_collaborators ∅) = (Ok cl, s')) as (cl & s' & E)
    by (eexists _, _; vm_compute; reflexivity).
  exists cl, s'. split; [exact E|].
  destruct (create_dispatches_on_family _ _ _ _ E) as (H1 & H2 & _).
  split; [exact H2|exact H1].
Defined.

Lemma factories_share_client_and_provider_witness :
  exists cl s1 cl_exec,
    BinanceLiveDataClientFactory_create
      (example_create_args (example_credentialed_config SPOT false None))
      (@initial_process example_collaborators ∅) = (Ok cl, s1)
    /\ BinanceLiveExecClientFactory_create
         (example_create_args (example_credentialed_config SPOT false None)) s1
       = (Ok cl_exec, s1)
    /\ live_client cl_exec = live_client cl
    /\ live_instrument_provider cl_exec = live_instrument_provider cl.
Proof.
  assert (exists cl s1,
            BinanceLiveDataClientFactory_create
              (example_create_args (example_credentialed_config SPOT false None))
              (@initial_process example_collaborators ∅) = (Ok cl, s1)) as (cl & s1 & E)
    by (eexists _, _; vm_compute; reflexivity).
  destruct (factories_share_client_and_provider
              (example_create_args (example_credentialed_config SPOT false None))
              (example_create_args (example_credentialed_config SPOT false None))
              (@initial_process example_collaborators ∅) s1 cl eq_refl eq_refl E)
    as (cl_exec & cl_data & He & _ & Hc & Hp & _).
  exists cl, s1, cl_exec. split; [exact E|]. split; [exact He|]. split; [exact Hc|exact Hp].
Defined.

Lemma same_credentials_share_http_client_witness :
  exists cl1 s1 cl2 s2,
    BinanceLiveDataClientFactory_create
      (example_create_args (example_credentialed_config SPOT false None))
      (@initial_process example_collaborators ∅) = (Ok cl1, s1)
    /\ BinanceLiveDataClientFactory_create
         (example_create_args (example_credentialed_config MARGIN false None)) s1
       = (Ok cl2, s2)
    /\ live_client cl2 = live_client cl1.
Proof.
  assert (exists cl1 s1 cl2 s2,
            BinanceLiveDataClientFactory_create
              (example_create_args (example_credentialed_config SPOT false None))
              (@initial_process example_collaborators ∅) = (Ok cl1, s1)
            /\ BinanceLiveDataClientFactory_create
                 (example_create_args (example_credentialed_config MARGIN false None)) s1
               = (Ok cl2, s2)) as (cl1 & s1 & cl2 & s2 & E1 & E2)
    by (eexists _, _, _, _; split; vm_compute; reflexivity).
  exists cl1, s1, cl2, s2. split; [exact E1|]. split; [exact E2|].
  apply (same_credentials_share_http_client
           (example_create_args (example_credentialed_config SPOT false None))
           (example_create_args (example_credentialed_config MARGIN false None))
           (@initial_process example_collaborators ∅) s1 s2 cl1 cl2 "k" "s");
    [reflexivity | reflexivity | reflexivity | reflexivity
    | discriminate | discriminate | exact E1 | exact E2].
Defined.

End FactoryProofs.

(* ===================================================================== *)
(** * Properties of the trade and order reports                           *)
(* ===================================================================== *)

Module ReportProofs.
Import Py Polymarket PolymarketExamples PolymarketProofs PolymarketNotions.

Section Trades.
Context {V : Vocabulary} {L : FixedPoint}.

Lemma scan_maker_orders_Ok (l : list PolymarketMakerOrder) (addr : string)
    (v : VenueOrderId) :
  scan_maker_orders l addr = Ok v ->
  exists o, In o l /\ mo_maker_address o = addr
            /\ venue_order_id_value v = order_id o.
Proof.
  induction l as [|x l IH]; cbn; [discriminate|].
  case_bool_decide as E.
  - intros [= <-]. exists x. cbn. auto.
  - intros H. destruct (IH H) as (o & Ho & R). exists o. auto.
Qed.

Lemma scan_maker_orders_Raise (l : list PolymarketMakerOrder) (addr : string)
    (e : exception) :
  scan_maker_orders l addr = Raise e ->
  Forall (fun o => mo_maker_address o <> addr) l.
Proof.
  induction l as [|x l IH]; cbn; [constructor|].
  case_bool_decide as E; [discriminate|].
  intros H. constructor; [done|]. by apply IH.
Qed.

(** X16: for a maker-perspective trade the resolution raises exactly when
    no sub-order carries the local maker address; and an id it returns is
    always the [order_id] of a sub-order of the payload with that address,
    never an id from elsewhere. *)
Theorem maker_resolution_fails_iff_no_match
    (t : PolymarketUserTrade) (maker_address : string) :
  trader_side t = MAKER ->
  ((exists e, user_trade_venue_order_id t maker_address = Raise e)
   <-> Forall (fun o => mo_maker_address o <> maker_address) (maker_orders t))
  /\ (forall v, user_trade_venue_order_id t maker_address = Ok v ->
        exists o, In o (maker_orders t) /\ mo_maker_address o = maker_address
                  /\ venue_order_id_value v = order_id o).
Proof.
  intros Hm. unfold user_trade_venue_order_id. rewrite Hm.
  rewrite (bool_decide_eq_true_2 (MAKER = MAKER)) by done.
  split; [split|].
  - intros [e H]. apply scan_maker_orders_Raise in H.
    apply List.Forall_rev in H. by rewrite rev_involutive in H.
  - intros H. eexists. apply scan_maker_orders_none. by apply List.Forall_rev.
  - intros v H. apply scan_maker_orders_Ok in H as (o & Ho & R).
    exists o. split; [|done]. by apply in_rev.
Qed.

(** X17: a taker-perspective trade never reads the maker data: its fill
    report is the same for every local maker address and every list of
    maker sub-orders. *)
Theorem taker_fill_ignores_maker_data
    (t : PolymarketUserTrade) (account_id : AccountId) (instrument : BinaryOption)
    (client_order_id : option ClientOrderId) (ts_init : Z) (report_id : UUID4)
    (address1 address2 : string) (orders : list PolymarketMakerOrder) :
  trader_side t = TAKER ->
  user_trade_parse_to_fill_report (with_maker_orders t orders) account_id instrument
    client_order_id address2 ts_init report_id
  = user_trade_parse_to_fill_report t account_id instrument client_order_id
      address1 ts_init report_id.
Proof.
  intros Ht.
  unfold user_trade_parse_to_fill_report, user_trade_venue_order_id, liqudity_side.
  cbn. rewrite Ht. reflexivity.
Qed.

(** X18: for a maker-perspective trade without a sub-order of the local
    maker address, the fill report fails with the resolver's [ValueError]
    whatever the other fields hold: the id is resolved before size, price
    and match time are read. *)
Theorem maker_not_found_fails_fill_report
    (t : PolymarketUserTrade) (account_id : AccountId) (instrument : BinaryOption)
    (client_order_id : option ClientOrderId) (maker_address : string)
    (ts_init : Z) (report_id : UUID4) :
  trader_side t = MAKER ->
  Forall (fun o => mo_maker_address o <> maker_address) (maker_orders t) ->
  user_trade_parse_to_fill_report t account_id instrument client_order_id
    maker_address ts_init report_id
  = Raise (ValueError "Invalid array of maker orders (`maker_address` not found)").
Proof.
  intros Hm Hnone.
  unfold user_trade_parse_to_fill_report, user_trade_venue_order_id. rewrite Hm.
  rewrite (bool_decide_eq_true_2 (MAKER = MAKER)) by done.
  rewrite scan_maker_orders_none by (by apply List.Forall_rev). reflexivity.
Qed.


End Trades.

Section Orders.
Context {V : Vocabulary} {L : FixedPoint}.

(** X20: the snapshot parser and the update parser agree: an open-order
    snapshot carrying the same data as an order update, with [created_at]
    the number the update's [timestamp] string denotes, gives the same
    result (report or exception) as the update. *)
Theorem open_order_report_agrees_with_update
    (o : PolymarketUserOrder) (account_id : AccountId) (instrument : BinaryOption)
    (client_order_id : option ClientOrderId) (ts_init : Z) (report_id : UUID4)
    (ms : Z) :
  int_of_str (uo_timestamp o) = Ok ms ->
  open_order_parse_to_order_status_report (as_open_order o ms) account_id
    instrument client_order_id ts_init report_id
  = user_order_parse_to_order_status_report o account_id instrument
      client_order_id ts_init report_id.
Proof.
  intros Hms.
  unfold open_order_parse_to_order_status_report,
    user_order_parse_to_order_status_report.
  rewrite Hms. reflexivity.
Qed.

(** X22: an order update with an empty [timestamp], [price],
    [original_size] or [size_matched] never yields a report: the parser
    raises. *)
Theorem empty_numeric_field_raises
    (o : PolymarketUserOrder) (account_id : AccountId) (instrument : BinaryOption)
    (client_order_id : option ClientOrderId) (ts_init : Z) (report_id : UUID4) :
  uo_timestamp o = EmptyString \/ uo_price o = EmptyString
  \/ uo_original_size o = EmptyString \/ uo_size_matched o = EmptyString ->
  exists e, user_order_parse_to_order_status_report o account_id instrument
              client_order_id ts_init report_id = Raise e.
Proof.
  intros H.
  destruct (user_order_parse_to_order_status_report o account_id instrument
              client_order_id ts_init report_id) as [r|e] eqn:E; [exfalso|by eexists].
  unfold user_order_parse_to_order_status_report in E.
  do 7 bind_inv E.
  destruct H as [H|[H|[H|H]]]; rewrite H in *; discriminate.
Qed.

End Orders.

Lemma maker_resolution_fails_iff_no_match_witness :
  exists o, In o (maker_orders (example_trade MAKER))
            /\ mo_maker_address o = "0xME" /\ "order-3" = order_id o.
Proof.
  destruct (maker_resolution_fails_iff_no_match (example_trade MAKER) "0xME" eq_refl)
    as [_ H].
  apply (H {| venue_order_id_value := "order-3" |}). reflexivity.
Defined.

Lemma taker_fill_ignores_maker_data_witness :
  user_trade_parse_to_fill_report (L := example_fixed_point)
      (with_maker_orders (example_trade TAKER) [])
    example_account example_instrument None "0xOTHER" 0 example_report_id
  = user_trade_parse_to_fill_report (L := example_fixed_point)
      (example_trade TAKER)
      example_account example_instrument None "0xME" 0 example_report_id.
Proof.
  apply (taker_fill_ignores_maker_data (example_trade TAKER) example_account
           example_instrument None 0 example_report_id "0xME" "0xOTHER" []).
  reflexivity.
Defined.

Lemma maker_not_found_fails_fill_report_witness :
  user_trade_parse_to_fill_report (L := example_fixed_point)
      (example_trade MAKER)
    example_account example_instrument None "0xNOBODY" 0 example_report_id
  = Raise (ValueError "Invalid array of maker orders (`maker_address` not found)").
Proof.
  apply (maker_not_found_fails_fill_report (example_trade MAKER) example_account
           example_instrument None "0xNOBODY" 0 example_report_id).
  - reflexivity.
  - repeat constructor; discriminate.
Defined.


Lemma open_order_report_agrees_with_update_witness :
  open_order_parse_to_order_status_report (L := example_fixed_point)
    (as_open_order (example_order "0" "10.5" "2.0" "0.37") 1725842520000)
    example_account example_instrument None 0 example_report_id
  = user_order_parse_to_order_status_report (L := example_fixed_point)
      (example_order "0" "10.5" "2.0" "0.37")
      example_account example_instrument None 0 example_report_id.
Proof.
  apply (open_order_report_agrees_with_update (example_order "0" "10.5" "2.0" "0.37")
           example_account example_instrument None 0 example_report_id 1725842520000).
  vm_compute. reflexivity.
Defined.

Lemma empty_numeric_field_raises_witness :
  exists e,
    user_order_parse_to_order_status_report (L := example_fixed_point)
      (example_order "0" "10.5" "2.0" "")
      example_account example_instrument None 0 example_report_id = Raise e.
Proof.
  apply (empty_numeric_field_raises (example_order "0" "10.5" "2.0" "")).
  right. left. reflexivity.
Defined.

End ReportProofs.

(* ===================================================================== *)
(** * Properties of the extension scan of setup.py                        *)
(* ===================================================================== *)

Module SetupProofs.
Import Setup SetupExamples.

(** Induction on a file tree, with the hypothesis for every item of a
    listing. *)
Lemma entry_tree_ind (P : entry -> Prop) :
  P File -> P Special ->
  (forall listing, Forall (fun item => P (snd item)) listing -> P (Directory listing)) ->
  forall e, P e.
Proof.
  intros HF HS HD.
  fix IH 1. intros [|listing|]; [exact HF| |exact HS].
  apply HD. induction listing as [|item rest IHrest]; constructor; [apply IH|exact IHrest].
Qed.

Lemma fold_left_appends {A B} (f : list B -> A -> list B) (g : A -> list B) (l : list A) :
  Forall (fun item => forall acc, f acc item = acc ++ g item) l ->
  forall acc, fold_left f l acc = acc ++ concat (map g l).
Proof.
  induction 1 as [|item rest Hitem _ IH]; intros acc; cbn.
  - by rewrite app_nil_r.
  - rewrite IH, Hitem. by rewrite <- app_assoc.
Qed.

Lemma scan_entry_appends (e : entry) :
  forall path files, scan_entry path e files = files ++ scan_entry path e [].
Proof.
  induction e as [| |listing IH] using entry_tree_ind; intros path files;
    cbn [scan_entry].
  - destruct (endswith path (lit ".pyx")); by rewrite ?app_nil_r.
  - by rewrite app_nil_r.
  - rewrite !(fold_left_appends _
               (fun item => scan_entry (join path (fst item)) (snd item) [])).
    + reflexivity.
    + eapply Forall_impl; [exact IH|]. intros item H acc. apply H.
    + eapply Forall_impl; [exact IH|]. intros item H acc. apply H.
Qed.

Lemma scan_files_concat (directory : str) (listing : list (str * entry)) (files : list str) :
  scan_files directory listing files
  = files ++ concat (map (fun item => scan_entry (join directory (fst item)) (snd item) [])
                       listing).
Proof.
  unfold scan_files. apply fold_left_appends.
  apply List.Forall_forall. intros item _ acc. apply scan_entry_appends.
Qed.

(** X23: [scan_files] only appends. Whatever the list holds when the scan
    starts is still there, in front and in order, when it returns, and what
    is appended is what a scan with an empty list finds. *)
Theorem scan_files_only_appends
    (directory : str) (listing : list (str * entry)) (files : list str) :
  scan_files directory listing files = files ++ scan_files directory listing [].
Proof. by rewrite (scan_files_concat _ _ files), (scan_files_concat _ _ []). Qed.

Lemma in_scan_entry (e : entry) :
  forall path name,
    In name (scan_entry path e []) <->
    match e with
    | File => endswith path (lit ".pyx") = true /\ name = module_name path
    | Directory listing =>
        exists p, file_below path listing p
                  /\ endswith p (lit ".pyx") = true /\ name = module_name p
    | Special => False
    end.
Proof.
  induction e as [| |listing IH] using entry_tree_ind; intros path name.
  - cbn [scan_entry]. destruct (endswith path (lit ".pyx")); cbn [In app].
    + split; [intros [<-|[]]; done|intros [_ ->]; by left].
    + split; [intros []|intros [[=] _]].
  - done.
  - change (scan_entry path (Directory listing) []) with (scan_files path listing []).
    rewrite scan_files_concat. cbn [app]. rewrite in_concat. split.
    + intros (names & Hin & Hname). apply in_map_iff in Hin as ([file child] & <- & Hitem).
      cbn in Hname. rewrite List.Forall_forall in IH.
      apply (IH _ Hitem) in Hname. cbn in Hname. destruct child as [|sub|].
      * destruct Hname as [He ->]. exists (join path file). split; [|done].
        by apply file_here.
      * destruct Hname as (p & Hp & He & ->). exists p. split; [|done].
        by apply (file_deeper _ _ file sub).
      * done.
    + intros (p & Hp & He & ->). rewrite List.Forall_forall in IH. destruct Hp as [d l file Hitem|d l file sub p Hitem Hp].
      * exists (scan_entry (join d file) File []). split.
        -- apply in_map_iff. by exists (file, File).
        -- apply (IH _ Hitem). done.
      * exists (scan_entry (join d file) (Directory sub) []). split.
        -- apply in_map_iff. by exists (file, Directory sub).
        -- apply (IH _ Hitem). cbn. eauto.
Qed.

(** X24: a scan that starts from an empty list finds exactly the .pyx
    files below the directory: a name is in the result if and only if it is
    the module name of a file below the directory whose path ends in
    .pyx. Files with another ending, and entries that are neither file nor
    directory, contribute nothing. *)
Theorem scan_files_finds_the_pyx_files
    (directory : str) (listing : list (str * entry)) (name : str) :
  In name (scan_files directory listing []) <->
  exists path, file_below directory listing path
               /\ endswith path (lit ".pyx") = true /\ name = module_name path.
Proof. exact (in_scan_entry (Directory listing) directory name). Qed.

Lemma scan_directories_from_accumulates
    (cwd : list (str * entry)) (directories : list str) :
  Forall (fun d => exists listing, listdir cwd d = Done listing) directories ->
  forall file_names default_files,
    scan_directories_from cwd directories file_names default_files
    = (Done (file_names ++ accumulated default_files (found cwd directories)),
       default_files ++ concat (found cwd directories)).
Proof.
  induction 1 as [|d rest [listing Hd] _ IH]; intros file_names default_files; cbn.
  - by rewrite !app_nil_r.
  - rewrite Hd. cbn. rewrite IH.
    rewrite (scan_files_concat d listing default_files), (scan_files_concat d listing []).
    cbn [app]. by rewrite !app_assoc.
Qed.

(** X25: the calls of [scan_files] in [scan_directories] share one list,
    the default value of the parameter [files], so the modules of an earlier
    directory are collected again with every later directory. For two
    directories, as in the call that builds [extensions], the result is what
    the shared list held at the start and the modules of the first
    directory, then all of that once more followed by the modules of the
    second directory; with an empty list at the start, every module of the
    first directory is listed twice. *)
Theorem scan_directories_repeats_earlier_modules
    (cwd : list (str * entry)) (d1 d2 : str) (l1 l2 : list (str * entry))
    (default_files : list str) :
  listdir cwd d1 = Done l1 -> listdir cwd d2 = Done l2 ->
  scan_directories cwd [d1; d2] default_files
  = (Done ((default_files ++ scan_files d1 l1 [])
           ++ (default_files ++ scan_files d1 l1 [] ++ scan_files d2 l2 [])),
     default_files ++ scan_files d1 l1 [] ++ scan_files d2 l2 []).
Proof.
  intros H1 H2. unfold scan_directories.
  rewrite scan_directories_from_accumulates by (repeat constructor; eauto).
  cbn. rewrite H1, H2. cbn. by rewrite !app_nil_r, <- !app_assoc.
Qed.

Lemma replace_replace_id (a b : ascii) (s : str) :
  Forall (fun c => c <> b) s -> replace b a (replace a b s) = s.
Proof.
  unfold replace. induction 1 as [|c s Hc _ IH]; cbn; [done|].
  rewrite IH. f_equal. repeat case_bool_decide; congruence.
Qed.

Lemma replace_take (a b : ascii) (n : nat) (s : str) :
  replace a b (take n s) = take n (replace a b s).
Proof. unfold replace. by rewrite <- fmap_take. Qed.

(** X26: [make_extension] leads back to the scanned file. For a path that
    ends in .pyx and has no other point in it, the extension made from
    its module name has that path as its only source; its name is the module
    name and its include directory the working directory. *)
Theorem make_extension_points_to_scanned_file (path : str) :
  endswith path (lit ".pyx") = true ->
  Forall (fun c => c <> "."%char) (drop_suffix4 path) ->
  make_extension (module_name path)
  = {| ext_name := module_name path; ext_sources := [path];
       ext_include_dirs := [lit "."] |}.
Proof.
  intros He Hdots. unfold make_extension. f_equal. f_equal.
  unfold ext_path, module_name, drop_suffix4 in *.
  unfold replace at 2. rewrite length_map. fold (replace sep "." path).
  rewrite <- replace_take, replace_replace_id by done.
  unfold endswith in He. apply bool_decide_eq_true in He.
  change (length (lit ".pyx")) with 4%nat in He.
  rewrite <- He. apply take_drop.
Qed.

(** X27: the module-level [extensions]. When both package directories can
    be listed, there is one extension per collected name: those of the
    modules of [inv_trader], then those same ones again, then those of the
    modules of [test_kit]. When a package directory cannot be listed, the
    [OSError] of the first such directory ends the computation and no
    extension is made. *)
Theorem extensions_of_the_two_packages (cwd : list (str * entry)) :
  match listdir cwd INV_TRADER, listdir cwd TEST_KIT with
  | Done l1, Done l2 =>
      extensions cwd
      = Done (map make_extension
                (scan_files INV_TRADER l1 []
                 ++ scan_files INV_TRADER l1 [] ++ scan_files TEST_KIT l2 []))
  | Done _, OSError p => extensions cwd = OSError p
  | OSError p, _ => extensions cwd = OSError p
  end.
Proof.
  unfold extensions, scan_directories. cbn [scan_directories_from].
  destruct (listdir cwd INV_TRADER) as [l1|p1]; [|reflexivity].
  cbv zeta. destruct (listdir cwd TEST_KIT) as [l2|p2]; [|reflexivity].
  cbn [fst app]. by rewrite (scan_files_concat TEST_KIT l2 (scan_files _ _ _)),
    (scan_files_concat TEST_KIT l2 []).
Qed.

Lemma scan_directories_repeats_earlier_modules_witness :
  fst (scan_directories example_tree [INV_TRADER; TEST_KIT] [])
  = Done [lit "inv_trader.core.precondition"; lit "inv_trader.model.enums";
          lit "inv_trader.core.precondition"; lit "inv_trader.model.enums";
          lit "test_kit.stubs"].
Proof.
  rewrite (scan_directories_repeats_earlier_modules example_tree INV_TRADER TEST_KIT
             [ (lit "core", Directory [ (lit "precondition.pyx", File);
                                        (lit "precondition.pxd", File) ]);
               (lit "model", Directory [ (lit "enums.pyx", File) ]);
               (lit "__init__.py", File) ]
             [ (lit "stubs.pyx", File) ] [] eq_refl eq_refl).
  reflexivity.
Defined.

Lemma make_extension_points_to_scanned_file_witness :
  ext_sources (make_extension (module_name (lit "inv_trader/core/precondition.pyx")))
  = [lit "inv_trader/core/precondition.pyx"].
Proof.
  rewrite (make_extension_points_to_scanned_file (lit "inv_trader/core/precondition.pyx")).
  - reflexivity.
  - reflexivity.
  - repeat constructor; discriminate.
Defined.

End SetupProofs.
